(** * MediCare Network client (src/App.jsx): a shallow embedding

    The client is one React module with two views.  [SeniorView] loads the
    day's medication status of a patient, derives the next dose that is not
    yet taken and confirms it; [CaregiverView] loads a dashboard snapshot
    and renders three panels.

    Layout of this file:
    - the data the backend sends (records, one per JSON shape);
    - the host (browser) built-ins the module calls, as a class;
    - [Array.prototype.sort] and the [nextPending] derivation on values;
    - a small state-and-exception monad for the [async] handlers, with the
      network as an oracle and a trace of everything a handler does;
    - the rendered trees of both views;
    - a store model of arrays and objects, for the one place where the
      module calls a mutating array method ([sort]);
    - the properties. *)

From stdpp Require Import base option list sorting strings gmap.
From Stdlib Require Import ZArith Lia Ascii.

Set Warnings "-register-all".

Open Scope string_scope.
Open Scope Z_scope.
Open Scope list_scope.

(** ** Data model: the JSON shapes of the three endpoints *)

Module DoseItem.
Record t := mk {
  medication_id : string;
  scheduled_time : string;   (* ISO-8601 text, parsed by [new Date] only *)
  status : string            (* "pending", "taken", "missed" *)
}.
End DoseItem.

Module DailyStatus.
(* The fields are read through [status?.f] and [?? 0]: a field that is
   missing or null is [None]. *)
Record t := mk {
  taken : option Z;
  total_doses : option Z;
  items : option (list DoseItem.t)
}.
End DailyStatus.

Module HistoryEntry.
Record t := mk {
  id : string;
  medication_id : string;
  scheduled_time : option string;   (* nullable *)
  status : string
}.
End HistoryEntry.

Module InventoryAlert.
Record t := mk {
  medication_id : string;
  name : string;
  inventory_count : Z;
  low_threshold : Z
}.
End InventoryAlert.

Module Dashboard.
Record t := mk {
  history : list HistoryEntry.t;
  missed : list HistoryEntry.t;
  inventory_alerts : list InventoryAlert.t
}.
End Dashboard.

#[global] Instance DoseItem_eq_dec : EqDecision DoseItem.t.
Proof. solve_decision. Defined.

(** ** The host: built-ins of the browser that App.jsx calls

    [Date_getTime s] is the time value of [new Date(s)] in milliseconds
    since the epoch, [None] standing for NaN (an Invalid Date). *)

Class Host := {
  VITE_BACKEND_URL : option string;      (* import.meta.env.VITE_BACKEND_URL *)
  encodeURIComponent : string → string;
  Date_getTime : string → option Z;
  Date_toLocaleString : string → string;     (* new Date(s).toLocaleString() *)
  Date_toLocaleTimeString : string → string;
  today : string                         (* new Date().toLocaleDateString() *)
}.

(* Truthiness of a string: every string but the empty one. *)
Definition truthy (s : string) : bool := negb (String.eqb s "").

(* Line 3: the configured URL, or the local default when it is unset or
   empty. *)
Definition API_BASE `{Host} : string :=
  match VITE_BACKEND_URL with
  | Some u => if truthy u then u else "http://localhost:8000"
  | None => "http://localhost:8000"
  end.

(** ** Numbers that may be NaN, and [Array.prototype.sort] *)

(* [new Date(a) - new Date(b)]: the difference of two time values; NaN as
   soon as one of them is NaN. *)
Definition Date_sub (a b : option Z) : option Z :=
  match a, b with
  | Some x, Some y => Some (x - y)
  | _, _ => None
  end.

(* SortCompare of ECMAScript: the comparator's result is converted to a
   number and NaN is read as +0. *)
Definition SortCompare {A} (comparefn : A → A → option Z) (x y : A) : Z :=
  default 0 (comparefn x y).

(* [sort] is stable (ES2019).  For a comparator that is a total preorder the
   stable sorted order is unique, so any stable algorithm models it; this is
   insertion from the right, an element going in front of the first element
   it does not compare greater than.  For a comparator that is no total
   preorder (a time that cannot be read among times that can) the order an
   engine produces is its own and need not be the one computed here; the
   properties below that speak of the order assume readable times, or none
   readable at all. *)
Fixpoint sort_insert {A} (comparefn : A → A → option Z) (x : A) (l : list A)
  : list A :=
  match l with
  | [] => [x]
  | y :: l' =>
      if decide (SortCompare comparefn x y ≤ 0) then x :: y :: l'
      else y :: sort_insert comparefn x l'
  end.

Definition Array_sort {A} (comparefn : A → A → option Z) (l : list A) : list A :=
  foldr (sort_insert comparefn) [] l.

(** ** Effects of the [async] handlers

    A handler reads the values its render closed over, calls [fetch] and the
    state setters.  [World] holds the view's state and the trace of what has
    been done so far; the network is an oracle that answers a request from
    the whole trace before it, so one endpoint may answer differently each
    time. *)

Record Error := { message : string }.

Inductive result (A : Type) :=
| Return (a : A)
| Throw (e : Error).
Arguments Return {A} a.
Arguments Throw {A} e.

Inductive http_method := GET | POST.

(* The only value the module serialises is an object literal whose
   properties are strings. *)
Inductive json_value := JString (s : string).

Inductive request_body := JSON_stringify (object : list (string * json_value)).

Record request := {
  url : string;
  method : http_method;
  headers : list (string * string);
  body : option request_body
}.

(* [res.ok] and the outcome of [res.json()], which rejects on a body that is
   not JSON. *)
Record Response (A : Type) := {
  ok : bool;
  Response_json : Error + A
}.
Arguments ok {A} r.
Arguments Response_json {A} r.

(* A promise returned by [fetch], once settled. *)
Inductive settled (A : Type) :=
| Rejected (e : Error)
| Resolved (res : Response A).
Arguments Rejected {A} e.
Arguments Resolved {A} res.

Inductive event :=
| Fetch (r : request)
| SetLoading (b : bool)
| SetError (s : string)
| SetStatus (d : DailyStatus.t)
| SetData (d : Dashboard.t).

(* The backend behind [API_BASE], one typed answer per endpoint of the
   table in the spec. *)
Record Network := {
  senior_today : list event → request → settled DailyStatus.t;
  senior_confirm : list event → request → settled unit;
  caregiver_dashboard : list event → request → settled Dashboard.t
}.

Record World (S : Type) := { view : S; trace : list event }.
Arguments view {S} w.
Arguments trace {S} w.

Definition M (S A : Type) : Type := World S → result A * World S.

#[global] Instance M_ret {S} : MRet (M S) := λ A a w, (Return a, w).

#[global] Instance M_bind {S} : MBind (M S) := λ A B k m w,
  match m w with
  | (Return a, w') => k a w'
  | (Throw e, w') => (Throw e, w')
  end.

Definition throw {S A} (e : Error) : M S A := λ w, (Throw e, w).

(* try { body } catch (e) { handler e } finally { fin } *)
Definition try_catch_finally {S} (body : M S unit) (handler : Error → M S unit)
  (fin : M S unit) : M S unit := λ w,
  let '(r, w1) :=
    match body w with
    | (Return a, w') => (Return a, w')
    | (Throw e, w') => handler e w'
    end in
  match fin w1 with
  | (Return _, w2) => (r, w2)
  | (Throw e, w2) => (Throw e, w2)
  end.

(* A state setter: the new value is stored and the call is recorded. *)
Definition set_state {S} (f : S → S) (ev : event) : M S unit := λ w,
  (Return (), {| view := f (view w); trace := trace w ++ [ev] |}).

(* await fetch(...) *)
Definition await_fetch {S A} (endpoint : list event → request → settled A)
  (r : request) : M S (Response A) := λ w,
  let w' := {| view := view w; trace := trace w ++ [Fetch r] |} in
  match endpoint (trace w) r with
  | Rejected e => (Throw e, w')
  | Resolved res => (Return res, w')
  end.

(* await res.json() *)
Definition await_json {S A} (res : Response A) : M S A :=
  match Response_json res with
  | inl e => throw e
  | inr a => mret a
  end.

Module SeniorView.

(* The four [useState] cells, lines 6-9. *)
Record state := {
  userId : string;
  status : option DailyStatus.t;
  loading : bool;
  error : string
}.

Definition initial : state :=
  {| userId := "demo-patient"; status := None; loading := false; error := "" |}.

Definition setStatus (d : DailyStatus.t) : M state unit :=
  set_state (λ s, {| userId := userId s; status := Some d;
                     loading := loading s; error := error s |}) (SetStatus d).

Definition setLoading (b : bool) : M state unit :=
  set_state (λ s, {| userId := userId s; status := status s;
                     loading := b; error := error s |}) (SetLoading b).

Definition setError (m : string) : M state unit :=
  set_state (λ s, {| userId := userId s; status := status s;
                     loading := loading s; error := m |}) (SetError m).

(* Lines 13-26.  [c] is the render whose closure the handler is. *)
Definition fetchStatus `{Host} (net : Network) (c : state) : M state unit :=
  try_catch_finally
    (setLoading true ;;
     setError "" ;;
     res ← await_fetch (senior_today net)
             {| url := API_BASE +:+ "/api/senior/today?user_id="
                         +:+ encodeURIComponent (userId c);
                method := GET; headers := []; body := None |};
     if negb (ok res) then throw {| message := "Failed to fetch status" |}
     else
       data ← await_json res;
       setStatus data)
    (λ e, setError (message e))
    (setLoading false).

(* (a,b) => new Date(a.scheduled_time) - new Date(b.scheduled_time) *)
Definition by_scheduled_time `{Host} (a b : DoseItem.t) : option Z :=
  Date_sub (Date_getTime (DoseItem.scheduled_time a))
           (Date_getTime (DoseItem.scheduled_time b)).

Definition not_taken (i : DoseItem.t) : Prop := DoseItem.status i ≠ "taken".

#[global] Instance not_taken_dec i : Decision (not_taken i).
Proof. unfold not_taken. apply _. Defined.

(* Lines 30-36, memoised on [status]. *)
Definition nextPending `{Host} (status : option DailyStatus.t)
  : option DoseItem.t :=
  match status ≫= DailyStatus.items with          (* !status?.items *)
  | None => None
  | Some items =>
      let pending := filter not_taken items in
      if decide (length pending = 0%nat) then None
      else head (Array_sort by_scheduled_time pending)
  end.

(* Lines 38-59. *)
Definition handleConfirm `{Host} (net : Network) (c : state) : M state unit :=
  match nextPending (status c) with
  | None => mret ()
  | Some np =>
      try_catch_finally
        (setLoading true ;;
         setError "" ;;
         res ← await_fetch (senior_confirm net)
                 {| url := API_BASE +:+ "/api/senior/confirm";
                    method := POST;
                    headers := [("Content-Type", "application/json")];
                    body := Some (JSON_stringify
                      [("user_id", JString (userId c));
                       ("medication_id", JString (DoseItem.medication_id np));
                       ("scheduled_time_iso",
                        JString (DoseItem.scheduled_time np))]) |};
         if negb (ok res) then throw {| message := "Failed to confirm dose" |}
         else fetchStatus net c)
        (λ e, setError (message e))
        (setLoading false)
  end.

End SeniorView.

(** ** Rendered trees

    What a component returns: elements with the attributes the JSX sets, and
    text or number children.  A child written [{c && <e/>}] is present when
    [c] is truthy and renders nothing otherwise. *)

Inductive callback :=
| cb_handleConfirm
| cb_setUserId
| cb_fetchData
| cb_setPatientId.

Inductive attr :=
| className (s : string)
| key (s : string)
| disabled (b : bool)
| value (s : string)
| onClick (f : callback)
| onChange (f : callback).

Inductive node :=
| text (s : string)
| number (n : Z)
| elem (tag : string) (attrs : list attr) (children : list node).

Module SeniorViewRender.
Import SeniorView.

(* Lines 81-87. *)
Definition confirm_button `{Host} (c : state) : node :=
  elem "button"
    [onClick cb_handleConfirm;
     disabled (match nextPending (status c) with       (* !nextPending *)
               | Some _ => false
               | None => true
               end);
     className ("w-full py-5 text-xl font-bold rounded-2xl transition-colors "
       +:+ match nextPending (status c) with
          | Some _ => "bg-green-600 hover:bg-green-700 text-white"
          | None => "bg-gray-200 text-gray-500 cursor-not-allowed"
          end)]
    [text "Confirm"].

(* Lines 88-90. *)
Definition next_dose_line `{Host} (c : state) : node :=
  elem "p" [className "mt-3 text-center text-sm text-gray-600"]
    [text (match nextPending (status c) with
           | Some np => "Next dose scheduled at "
                          +:+ Date_toLocaleTimeString (DoseItem.scheduled_time np)
           | None => "All doses confirmed for today"
           end)].

(* Lines 61-100. *)
Definition render `{Host} (c : state) : node :=
  elem "div" [className "w-full max-w-md mx-auto p-6"]
    ([elem "div" [className "text-center mb-6"]
        [elem "h1" [className "text-2xl font-bold"]
           [text "Today's Medication Status"];
         elem "p" [className "text-gray-600"] [text today]]]
     ++ (if truthy (error c)
         then [elem "div"
                 [className "bg-red-50 text-red-700 border border-red-200 rounded p-3 mb-4 text-sm"]
                 [text (error c)]]
         else [])
     ++ [elem "div" [className "bg-white rounded-2xl shadow p-6"]
           (if loading c
            then [elem "p" [className "text-center"] [text "Loading..."]]
            else
              [elem "div"
                 [className "flex items-center justify-between mb-4 text-lg"]
                 [elem "span" [] [text "Taken"];
                  elem "span" [className "font-semibold"]
                    [number (default 0 (status c ≫= DailyStatus.taken));
                     text "/";
                     number (default 0 (status c ≫= DailyStatus.total_doses))]];
               confirm_button c;
               next_dose_line c]);
         elem "div" [className "mt-6 text-center"]
           [elem "label" [className "block text-sm text-gray-600 mb-1"]
              [text "Patient ID"];
            elem "input"
              [value (userId c); onChange cb_setUserId;
               className "w-full border rounded px-3 py-2"] []]]).

End SeniorViewRender.

Module CaregiverView.

(* The four [useState] cells, lines 104-107. *)
Record state := {
  patientId : string;
  data : option Dashboard.t;
  loading : bool;
  error : string
}.

Definition initial : state :=
  {| patientId := "demo-patient"; data := None; loading := false; error := "" |}.

Definition setData (d : Dashboard.t) : M state unit :=
  set_state (λ s, {| patientId := patientId s; data := Some d;
                     loading := loading s; error := error s |}) (SetData d).

Definition setLoading (b : bool) : M state unit :=
  set_state (λ s, {| patientId := patientId s; data := data s;
                     loading := b; error := error s |}) (SetLoading b).

Definition setError (m : string) : M state unit :=
  set_state (λ s, {| patientId := patientId s; data := data s;
                     loading := loading s; error := m |}) (SetError m).

(* Lines 109-122. *)
Definition fetchData `{Host} (net : Network) (c : state) : M state unit :=
  try_catch_finally
    (setLoading true ;;
     setError "" ;;
     res ← await_fetch (caregiver_dashboard net)
             {| url := API_BASE +:+ "/api/caregiver/dashboard?patient_id="
                         +:+ encodeURIComponent (patientId c);
                method := GET; headers := []; body := None |};
     if negb (ok res) then throw {| message := "Failed to load dashboard" |}
     else
       json ← await_json res;
       setData json)
    (λ e, setError (message e))
    (setLoading false).

(* h.scheduled_time ? new Date(h.scheduled_time).toLocaleString() : '-' *)
Definition scheduled_text `{Host} (t : option string) : string :=
  match t with
  | Some s => if truthy s then Date_toLocaleString s else "-"
  | None => "-"
  end.

(* Lines 147-157: the children of the history list. *)
Definition history_rows `{Host} (d : Dashboard.t) : list node :=
  (λ h,
     elem "div"
       [key (HistoryEntry.id h);
        className "flex items-center justify-between text-sm border-b pb-2"]
       [elem "div" []
          [elem "div" [className "font-medium"]
             [text (HistoryEntry.medication_id h)];
           elem "div" [className "text-gray-600"]
             [text "Scheduled: ";
              text (scheduled_text (HistoryEntry.scheduled_time h))]];
        elem "div"
          [className ("px-2 py-1 rounded text-white "
             +:+ (if String.eqb (HistoryEntry.status h) "taken" then "bg-green-600"
                 else if String.eqb (HistoryEntry.status h) "missed"
                      then "bg-red-600" else "bg-gray-400"))]
          [text (HistoryEntry.status h)]])
  <$> Dashboard.history d.

(* Lines 164-170: the children of the missed-doses list. *)
Definition missed_rows `{Host} (d : Dashboard.t) : list node :=
  (if decide (length (Dashboard.missed d) = 0%nat)
   then [elem "p" [className "text-sm text-gray-600"]
           [text "No missed doses in the last week."]]
   else [])
  ++ ((λ m,
         elem "div" [key (HistoryEntry.id m); className "text-sm"]
           [elem "div" [className "font-medium"]
              [text (HistoryEntry.medication_id m)];
            elem "div" [className "text-gray-600"]
              [text (scheduled_text (HistoryEntry.scheduled_time m))]])
      <$> Dashboard.missed d).

(* Lines 177-186: the children of the inventory-alerts list. *)
Definition inventory_rows (d : Dashboard.t) : list node :=
  (if decide (length (Dashboard.inventory_alerts d) = 0%nat)
   then [elem "p" [className "text-sm text-gray-600"]
           [text "All inventories look good."]]
   else [])
  ++ ((λ a,
         elem "div"
           [key (InventoryAlert.medication_id a);
            className "flex items-center justify-between text-sm"]
           [elem "div" []
              [elem "div" [className "font-medium"]
                 [text (InventoryAlert.name a)];
               elem "div" [className "text-gray-600"]
                 [number (InventoryAlert.inventory_count a);
                  text " left (threshold ";
                  number (InventoryAlert.low_threshold a);
                  text ")"]];
            elem "span" [className "text-red-600 font-semibold"] [text "Low"]])
      <$> Dashboard.inventory_alerts d).

(* Lines 143-190: the three panels. *)
Definition panels `{Host} (d : Dashboard.t) : node :=
  elem "div" [className "grid md:grid-cols-3 gap-6"]
    [elem "div" [className "col-span-2 bg-white rounded-xl shadow p-5"]
       [elem "h2" [className "font-semibold mb-3"]
          [text "Medication History (30 days)"];
        elem "div" [className "space-y-2 max-h-96 overflow-auto"]
          (history_rows d)];
     elem "div" [className "space-y-6"]
       [elem "div" [className "bg-white rounded-xl shadow p-5"]
          [elem "h2" [className "font-semibold mb-3"]
             [text "Missed Doses (7 days)"];
           elem "div" [className "space-y-2"] (missed_rows d)];
        elem "div" [className "bg-white rounded-xl shadow p-5"]
          [elem "h2" [className "font-semibold mb-3"]
             [text "Inventory Alerts"];
           elem "div" [className "space-y-2"] (inventory_rows d)]]].

(* Lines 126-193. *)
Definition render `{Host} (c : state) : node :=
  elem "div" [className "max-w-5xl mx-auto p-6"]
    ([elem "div" [className "flex items-center justify-between mb-6"]
        [elem "h1" [className "text-2xl font-bold"]
           [text "Caregiver Dashboard"];
         elem "div" [className "flex items-center gap-2"]
           [elem "input"
              [value (patientId c); onChange cb_setPatientId;
               className "border rounded px-3 py-2"] [];
            elem "button"
              [onClick cb_fetchData;
               className "bg-blue-600 hover:bg-blue-700 text-white px-4 py-2 rounded"]
              [text "Refresh"]]]]
     ++ (if truthy (error c)
         then [elem "div"
                 [className "bg-red-50 text-red-700 border border-red-200 rounded p-3 mb-4 text-sm"]
                 [text (error c)]]
         else [])
     ++ (if loading c then [elem "p" [] [text "Loading..."]] else [])
     ++ (if loading c then []
         else match data c with
              | Some d => [panels d]
              | None => []
              end)).

End CaregiverView.

(** ** The store: objects and arrays by reference

    [nextPending] is the one place where the module calls a method that
    writes to its receiver: [sort] reorders the array it is called on.  Here
    the status, its item array and the items are objects in a store, an
    array holds references, [filter] allocates a new array and [sort] writes
    the receiver.  An operation is [None] where JavaScript would raise a
    TypeError (a reference that is not to an object of the expected kind). *)

Module Store.

Definition loc := positive.

Inductive object :=
| Item (d : DoseItem.t)
| Array (elems : list loc)
| Status (taken total_doses : option Z) (items : option loc).

Definition get_item (h : gmap loc object) (l : loc) : option DoseItem.t :=
  match h !! l with Some (Item d) => Some d | _ => None end.

Definition get_array (h : gmap loc object) (l : loc) : option (list loc) :=
  match h !! l with Some (Array es) => Some es | _ => None end.

Definition get_status (h : gmap loc object) (l : loc)
  : option (option Z * option Z * option loc) :=
  match h !! l with Some (Status t n a) => Some (t, n, a) | _ => None end.

Definition alloc (o : object) (h : gmap loc object) : loc * gmap loc object :=
  let l := fresh (dom h) in (l, <[l := o]> h).

(* The items an array of references holds, read in order. *)
Definition get_elems (h : gmap loc object) (a : loc)
  : option (list (loc * DoseItem.t)) :=
  es ← get_array h a;
  ds ← mapM (get_item h) es;
  Some (zip es ds).

(* a.filter(i => P i): a new array of the references whose object passes. *)
Definition Array_filter (P : DoseItem.t → Prop) `{!∀ i, Decision (P i)}
  (a : loc) (h : gmap loc object) : option (loc * gmap loc object) :=
  eds ← get_elems h a;
  Some (alloc (Array (fst <$> filter (λ ed, P ed.2) eds)) h).

Local Abbreviation stable_sort := Array_sort.

(* a.sort(comparefn): the receiver is reordered in place and returned. *)
Definition Array_sort (comparefn : DoseItem.t → DoseItem.t → option Z) (a : loc)
  (h : gmap loc object) : option (loc * gmap loc object) :=
  eds ← get_elems h a;
  Some (a, <[a := Array (fst <$> stable_sort (λ x y, comparefn x.2 y.2) eds)]> h).

(* Lines 30-36 on the store; [status] is the reference the state cell holds
   ([None] for null), the result the reference [nextPending] holds. *)
Definition nextPending `{Host} (status : option loc) (h : gmap loc object)
  : option (option loc * gmap loc object) :=
  match status with
  | None => Some (None, h)
  | Some s =>
      '(_, _, items) ← get_status h s;
      match items with
      | None => Some (None, h)
      | Some a =>
          '(pending, h1) ← Array_filter SeniorView.not_taken a h;
          es ← get_array h1 pending;
          if decide (length es = 0%nat) then Some (None, h1)
          else
            '(sorted, h2) ← Array_sort SeniorView.by_scheduled_time pending h1;
            es' ← get_array h2 sorted;
            Some (head es', h2)
      end
  end.

(* The value a status reference stands for. *)
Definition load_status (h : gmap loc object) (s : loc) : option DailyStatus.t :=
  '(t, n, items) ← get_status h s;
  match items with
  | None => Some (DailyStatus.mk t n None)
  | Some a =>
      eds ← get_elems h a;
      Some (DailyStatus.mk t n (Some (snd <$> eds)))
  end.

End Store.

(** ** A concrete host and backend, to run the definitions

    [Date_getTime] of this host reads the UTC form [YYYY-MM-DDTHH:mm:ssZ]
    of the ECMAScript date-time format and nothing else; on the other
    strings it answers NaN, which is a choice of this instance and no
    statement about a browser. *)

Module Demo.

Definition digit (a : ascii) : option Z :=
  let n := Z.of_nat (nat_of_ascii a) in
  if decide (48 ≤ n ≤ 57) then Some (n - 48) else None.

Fixpoint digits (acc : Z) (s : string) : option Z :=
  match s with
  | String.EmptyString => Some acc
  | String.String a s' => d ← digit a; digits (10 * acc + d) s'
  end.

Definition field (start len : nat) (s : string) : option Z :=
  digits 0 (String.substring start len s).

Definition is_leap (y : Z) : bool :=
  bool_decide (y mod 4 = 0 ∧ (y mod 100 ≠ 0 ∨ y mod 400 = 0)).

Definition days_in_month (y m : Z) : Z :=
  if decide (m = 2) then (if is_leap y then 29 else 28)
  else if decide (m = 4 ∨ m = 6 ∨ m = 9 ∨ m = 11) then 30
  else 31.

(* Days from 1970-01-01 to the civil date. *)
Definition days_from_civil (y m d : Z) : Z :=
  let y' := if decide (m ≤ 2) then y - 1 else y in
  let era := y' / 400 in
  let yoe := y' - era * 400 in
  let doy := (153 * (if decide (m ≤ 2) then m + 9 else m - 3) + 2) / 5 + d - 1 in
  let doe := yoe * 365 + yoe / 4 - yoe / 100 + doy in
  era * 146097 + doe - 719468.

Definition separators_ok (s : string) : bool :=
  bool_decide (String.length s = 20%nat
               ∧ String.substring 4 1 s = "-" ∧ String.substring 7 1 s = "-"
               ∧ String.substring 10 1 s = "T" ∧ String.substring 13 1 s = ":"
               ∧ String.substring 16 1 s = ":" ∧ String.substring 19 1 s = "Z").

Definition getTime (s : string) : option Z :=
  if separators_ok s then
    y ← field 0 4 s; m ← field 5 2 s; d ← field 8 2 s;
    hh ← field 11 2 s; mm ← field 14 2 s; ss ← field 17 2 s;
    if decide (1 ≤ m ≤ 12 ∧ 1 ≤ d ≤ days_in_month y m
               ∧ hh ≤ 23 ∧ mm ≤ 59 ∧ ss ≤ 59)
    then Some ((((days_from_civil y m d * 24 + hh) * 60 + mm) * 60 + ss) * 1000)
    else None
  else None.

(* No URL is configured; identifiers are made of unreserved characters, which
   [encodeURIComponent] leaves as they are; the locale formats are stand-ins
   (the text as it is, and its time-of-day part). *)
#[local] Instance host : Host := {|
  VITE_BACKEND_URL := None;
  encodeURIComponent := id;
  Date_getTime := getTime;
  Date_toLocaleString := id;
  Date_toLocaleTimeString := String.substring 11 8;
  today := "1/1/2024"
|}.

(* The example scenario of the spec. *)
Definition dose_A := DoseItem.mk "A" "2024-01-01T08:00:00Z" "taken".
Definition dose_B := DoseItem.mk "B" "2024-01-01T20:00:00Z" "pending".
Definition dose_C := DoseItem.mk "C" "2024-01-01T12:00:00Z" "pending".

Definition scenario : DailyStatus.t :=
  DailyStatus.mk (Some 1) (Some 3) (Some [dose_A; dose_B; dose_C]).

Definition all_taken : DailyStatus.t :=
  DailyStatus.mk (Some 1) (Some 1) (Some [dose_A]).

(* A backend that accepts every request and always sends [d]. *)
Definition serving (d : DailyStatus.t) : Network := {|
  senior_today := λ _ _, Resolved {| ok := true; Response_json := inr d |};
  senior_confirm := λ _ _, Resolved {| ok := true; Response_json := inr () |};
  caregiver_dashboard := λ _ _,
    Resolved {| ok := true; Response_json := inr (Dashboard.mk [] [] []) |}
|}.

(* A backend that answers every request with a status outside 2xx. *)
Definition refusing : Network := {|
  senior_today := λ _ _,
    Resolved {| ok := false; Response_json := inl {| message := "" |} |};
  senior_confirm := λ _ _,
    Resolved {| ok := false; Response_json := inl {| message := "" |} |};
  caregiver_dashboard := λ _ _,
    Resolved {| ok := false; Response_json := inl {| message := "" |} |}
|}.

(* A host that cannot be reached: every [fetch] rejects with [m]. *)
Definition unreachable (m : string) : Network := {|
  senior_today := λ _ _, Rejected {| message := m |};
  senior_confirm := λ _ _, Rejected {| message := m |};
  caregiver_dashboard := λ _ _, Rejected {| message := m |}
|}.

(* A backend whose 2xx answers carry a body that is not JSON. *)
Definition garbling (m : string) : Network := {|
  senior_today := λ _ _,
    Resolved {| ok := true; Response_json := inl {| message := m |} |};
  senior_confirm := λ _ _,
    Resolved {| ok := true; Response_json := inl {| message := m |} |};
  caregiver_dashboard := λ _ _,
    Resolved {| ok := true; Response_json := inl {| message := m |} |}
|}.

Definition showing (d : option DailyStatus.t) : SeniorView.state :=
  {| SeniorView.userId := "demo-patient"; SeniorView.status := d;
     SeniorView.loading := false; SeniorView.error := "" |}.

Definition world {S} (s : S) : World S := {| view := s; trace := [] |}.

(* The example scenario in a store: the status at 1, its array at 2, the
   items A, B, C at 3, 4, 5. *)
Definition store : gmap Store.loc Store.object :=
  <[1%positive := Store.Status (Some 1) (Some 3) (Some 2%positive)]>
  (<[2%positive := Store.Array [3; 4; 5]%positive]>
  (<[3%positive := Store.Item dose_A]>
  (<[4%positive := Store.Item dose_B]>
  (<[5%positive := Store.Item dose_C]> ∅)))).

End Demo.

(** ** Vocabulary of the statements *)

(* The element [Array_sort] leaves at index 0: the scan from the right that
   keeps the left element unless it compares greater. *)
Definition front {A} (comparefn : A → A → option Z) (l : list A) : option A :=
  foldr (λ x acc,
           match acc with
           | None => Some x
           | Some y => if decide (SortCompare comparefn x y ≤ 0) then Some x
                       else Some y
           end) None l.

(* [new Date(i.scheduled_time)] is a valid date. *)
Definition valid_time `{Host} (i : DoseItem.t) : Prop :=
  is_Some (Date_getTime (DoseItem.scheduled_time i)).

(* The time value of an item, 0 standing in where there is none. *)
Definition time_of `{Host} (i : DoseItem.t) : Z :=
  default 0 (Date_getTime (DoseItem.scheduled_time i)).

Definition after {S A} (m : M S A) (w : World S) : World S := (m w).2.

(* How a GET of this module ends: the parsed body, or the exception that
   reaches the [catch] ([failed] is the text thrown on a status outside
   2xx). *)
Definition fetch_outcome {A} (failed : string) (s : settled A) : Error + A :=
  match s with
  | Rejected e => inl e
  | Resolved res =>
      if ok res then Response_json res else inl {| message := failed |}
  end.

(* The same for the POST, whose body is never read. *)
Definition post_outcome {A} (failed : string) (s : settled A) : option Error :=
  match s with
  | Rejected e => Some e
  | Resolved res => if ok res then None else Some {| message := failed |}
  end.

Definition today_request `{Host} (userId : string) : request :=
  {| url := API_BASE +:+ "/api/senior/today?user_id="
              +:+ encodeURIComponent userId;
     method := GET; headers := []; body := None |}.

Definition confirm_request `{Host} (userId medication_id scheduled_time : string)
  : request :=
  {| url := API_BASE +:+ "/api/senior/confirm";
     method := POST;
     headers := [("Content-Type", "application/json")];
     body := Some (JSON_stringify
               [("user_id", JString userId);
                ("medication_id", JString medication_id);
                ("scheduled_time_iso", JString scheduled_time)]) |}.

Definition dashboard_request `{Host} (patientId : string) : request :=
  {| url := API_BASE +:+ "/api/caregiver/dashboard?patient_id="
              +:+ encodeURIComponent patientId;
     method := GET; headers := []; body := None |}.

(* The view of [SeniorView] with the identifier of [s] and the three other
   cells as given; the same for [CaregiverView]. *)
Definition senior (s : SeniorView.state) (status : option DailyStatus.t)
  (loading : bool) (error : string) : SeniorView.state :=
  {| SeniorView.userId := SeniorView.userId s; SeniorView.status := status;
     SeniorView.loading := loading; SeniorView.error := error |}.

Definition caregiver (s : CaregiverView.state) (data : option Dashboard.t)
  (loading : bool) (error : string) : CaregiverView.state :=
  {| CaregiverView.patientId := CaregiverView.patientId s;
     CaregiverView.data := data;
     CaregiverView.loading := loading; CaregiverView.error := error |}.

(* The state and trace [fetchStatus] leaves, from the answer it gets. *)
Definition fetchStatus_end `{Host} (net : Network) (c : SeniorView.state)
  (w : World SeniorView.state) : World SeniorView.state :=
  let started := trace w ++ [SetLoading true; SetError ""] in
  let req := today_request (SeniorView.userId c) in
  match fetch_outcome "Failed to fetch status" (senior_today net started req) with
  | inr d =>
      {| view := senior (view w) (Some d) false "";
         trace := started ++ [Fetch req; SetStatus d; SetLoading false] |}
  | inl e =>
      {| view := senior (view w) (SeniorView.status (view w)) false (message e);
         trace := started ++ [Fetch req; SetError (message e); SetLoading false] |}
  end.

(* The same for [handleConfirm] when a dose is pending. *)
Definition handleConfirm_end `{Host} (net : Network) (c : SeniorView.state)
  (np : DoseItem.t) (w : World SeniorView.state) : World SeniorView.state :=
  let started := trace w ++ [SetLoading true; SetError ""] in
  let req := confirm_request (SeniorView.userId c) (DoseItem.medication_id np)
               (DoseItem.scheduled_time np) in
  match post_outcome "Failed to confirm dose" (senior_confirm net started req) with
  | Some e =>
      {| view := senior (view w) (SeniorView.status (view w)) false (message e);
         trace := started ++ [Fetch req; SetError (message e); SetLoading false] |}
  | None =>
      let reloaded :=
        fetchStatus_end net c
          {| view := senior (view w) (SeniorView.status (view w)) true "";
             trace := started ++ [Fetch req] |} in
      {| view := senior (view reloaded) (SeniorView.status (view reloaded)) false
                   (SeniorView.error (view reloaded));
         trace := trace reloaded ++ [SetLoading false] |}
  end.

(* The same for [fetchData]. *)
Definition fetchData_end `{Host} (net : Network) (c : CaregiverView.state)
  (w : World CaregiverView.state) : World CaregiverView.state :=
  let started := trace w ++ [SetLoading true; SetError ""] in
  let req := dashboard_request (CaregiverView.patientId c) in
  match fetch_outcome "Failed to load dashboard"
          (caregiver_dashboard net started req) with
  | inr d =>
      {| view := caregiver (view w) (Some d) false "";
         trace := started ++ [Fetch req; SetData d; SetLoading false] |}
  | inl e =>
      {| view := caregiver (view w) (CaregiverView.data (view w)) false
                   (message e);
         trace := started ++ [Fetch req; SetError (message e); SetLoading false] |}
  end.

(* Each reference of [eds] is to the item paired with it. *)
Definition reads (h : gmap Store.loc Store.object)
  (eds : list (Store.loc * DoseItem.t)) : Prop :=
  Forall (λ ed, Store.get_item h ed.1 = Some ed.2) eds.

(* [h'] has every object of [h], unchanged. *)
Definition preserves (h h' : gmap Store.loc Store.object) : Prop :=
  ∀ l o, h !! l = Some o → h' !! l = Some o.

(** ** The rest of the module: effects on mount and on an identifier
    change, the two halves of a load, what a tree offers, and the shell *)

Module SeniorViewEffects.
Import SeniorView.

(* [setUserId(v)], line 97.  The trace records the calls to [fetch] and to
   the setters of the other cells; this setter only stores. *)
Definition setUserId (v : string) : M state unit := λ w,
  (Return (),
   {| view := {| userId := v; status := status (view w);
                 loading := loading (view w); error := error (view w) |};
      trace := trace w |}).

(* Line 28, after the first render: useEffect(() => { fetchStatus() },
   [userId]) with the cells at their initial values. *)
Definition mount `{Host} (net : Network) : M state unit :=
  fetchStatus net initial.

(* Lines 97 and 28: the input stores the text typed; the render that
   follows runs the effect when [userId] is not what it was in the render
   [c] before, with that new render as its closure. *)
Definition onChange `{Host} (net : Network) (v : string) (c : state)
  : M state unit :=
  setUserId v ;;
  if decide (v = userId c) then mret ()
  else fetchStatus net {| userId := v; status := status c;
                          loading := loading c; error := error c |}.

(* [fetchStatus] up to its first [await]: lines 15-17. *)
Definition fetchStatus_request `{Host} (c : state) : M state unit := λ w,
  (setLoading true ;;
   setError "" ;;
   set_state (λ s, s)
     (Fetch {| url := API_BASE +:+ "/api/senior/today?user_id="
                        +:+ encodeURIComponent (userId c);
               method := GET; headers := []; body := None |})) w.

(* [fetchStatus] from the moment the promise of [fetch] has settled with
   [answer]: lines 17-25. *)
Definition fetchStatus_settled (answer : settled DailyStatus.t)
  : M state unit :=
  try_catch_finally
    (res ← match answer with
           | Rejected e => throw e
           | Resolved res => mret res
           end;
     if negb (ok res) then throw {| message := "Failed to fetch status" |}
     else
       data ← await_json res;
       setStatus data)
    (λ e, setError (message e))
    (setLoading false).

End SeniorViewEffects.

Module CaregiverViewEffects.
Import CaregiverView.

(* [setPatientId(v)], line 131. *)
Definition setPatientId (v : string) : M state unit := λ w,
  (Return (),
   {| view := {| patientId := v; data := data (view w);
                 loading := loading (view w); error := error (view w) |};
      trace := trace w |}).

(* Line 124, after the first render. *)
Definition mount `{Host} (net : Network) : M state unit :=
  fetchData net initial.

(* Lines 131 and 124. *)
Definition onChange `{Host} (net : Network) (v : string) (c : state)
  : M state unit :=
  setPatientId v ;;
  if decide (v = patientId c) then mret ()
  else fetchData net {| patientId := v; data := data c;
                        loading := loading c; error := error c |}.

End CaregiverViewEffects.

#[global] Instance callback_eq_dec : EqDecision callback.
Proof. solve_decision. Defined.

#[global] Instance attr_eq_dec : EqDecision attr.
Proof. solve_decision. Defined.

(* The [onClick] of an element, unless the element is disabled. *)
Definition clicks_of (attrs : list attr) : list callback :=
  if bool_decide (disabled true ∈ attrs) then []
  else omap (λ a, match a with onClick f => Some f | _ => None end) attrs.

(* The callbacks a click somewhere in the tree can run. *)
Fixpoint clickable (n : node) : list callback :=
  match n with
  | elem _ attrs children =>
      clicks_of attrs
      ++ (fix go (l : list node) : list callback :=
            match l with
            | [] => []
            | c :: l' => clickable c ++ go l'
            end) children
  | _ => []
  end.

(* The [key] of a row. *)
Definition row_key (n : node) : option string :=
  match n with
  | elem _ attrs _ =>
      head (omap (λ a, match a with key k => Some k | _ => None end) attrs)
  | _ => None
  end.

(* The requests of a trace, in order. *)
Definition fetches (t : list event) : list request :=
  omap (λ e, match e with Fetch r => Some r | _ => None end) t.

(* Lines 68-70 and 136-138: the error banner. *)
Definition banner (error : string) : node :=
  elem "div"
    [className "bg-red-50 text-red-700 border border-red-200 rounded p-3 mb-4 text-sm"]
    [text error].

(* Lines 196-216: the shell.  Its tree has buttons that set the mode and a
   place for one of the two views. *)
Module App.

Inductive handler := setMode (m : string).

Inductive tree :=
| text (s : string)
| elem (tag className : string) (children : list tree)
| button (onClick : handler) (className : string) (children : list tree)
| component (name : string).

(* useState('senior') *)
Definition initial : string := "senior".

Definition render (mode : string) : tree :=
  elem "div" "min-h-screen bg-gradient-to-br from-slate-50 to-blue-50"
    [elem "header" "bg-white/80 backdrop-blur sticky top-0 z-10 shadow-sm"
       [elem "div"
          "max-w-5xl mx-auto px-6 py-4 flex items-center justify-between"
          [elem "div" "font-bold" [text "MediCare Network"];
           elem "div" "flex gap-2"
             [button (setMode "senior")
                ("px-3 py-2 rounded "
                 +:+ (if String.eqb mode "senior" then "bg-blue-600 text-white"
                      else "bg-gray-100"))
                [text "Senior"];
              button (setMode "caregiver")
                ("px-3 py-2 rounded "
                 +:+ (if String.eqb mode "caregiver"
                      then "bg-blue-600 text-white" else "bg-gray-100"))
                [text "Caregiver"]]]];
     elem "main" "py-8"
       [if String.eqb mode "senior" then component "SeniorView"
        else component "CaregiverView"]].

(* What a click on a button does to the mode. *)
Definition click (h : handler) (mode : string) : string :=
  match h with setMode m => m end.

(* The handlers of the buttons of a tree. *)
Fixpoint offered (t : tree) : list handler :=
  match t with
  | button h _ _ => [h]
  | elem _ _ children =>
      (fix go (l : list tree) : list handler :=
         match l with
         | [] => []
         | c :: l' => offered c ++ go l'
         end) children
  | _ => []
  end.

(* The buttons drawn as the active one. *)
Fixpoint highlighted (t : tree) : list handler :=
  match t with
  | button h cls _ =>
      if String.eqb cls "px-3 py-2 rounded bg-blue-600 text-white" then [h]
      else []
  | elem _ _ children =>
      (fix go (l : list tree) : list handler :=
         match l with
         | [] => []
         | c :: l' => highlighted c ++ go l'
         end) children
  | _ => []
  end.

(* The views placed in a tree. *)
Fixpoint shown (t : tree) : list string :=
  match t with
  | component name => [name]
  | elem _ _ children | button _ _ children =>
      (fix go (l : list tree) : list string :=
         match l with
         | [] => []
         | c :: l' => shown c ++ go l'
         end) children
  | _ => []
  end.

(* The modes the shell can be in: the initial one, and what a click on a
   button of the tree then rendered leaves. *)
Inductive reachable : string → Prop :=
| reachable_initial : reachable initial
| reachable_click mode h :
    reachable mode → h ∈ offered (render mode) → reachable (click h mode).

End App.

(* The texts and numbers a tree shows, in document order. *)
Inductive leaf :=
| leaf_text (s : string)
| leaf_number (n : Z).

Fixpoint leaves (n : node) : list leaf :=
  match n with
  | text s => [leaf_text s]
  | number z => [leaf_number z]
  | elem _ _ children =>
      (fix go (l : list node) : list leaf :=
         match l with
         | [] => []
         | c :: l' => leaves c ++ go l'
         end) children
  end.

(* Two dashboards of one patient, and a caregiver view that shows the
   first; a backend that always sends a given dashboard. *)
Module DemoDashboard.

Definition taken_A : HistoryEntry.t :=
  HistoryEntry.mk "h1" "A" (Some "2024-01-01T08:00:00Z") "taken".
Definition missed_B : HistoryEntry.t :=
  HistoryEntry.mk "h2" "B" None "missed".
Definition low_B : InventoryAlert.t := InventoryAlert.mk "B" "Beta" 2 5.

Definition before : Dashboard.t := Dashboard.mk [taken_A] [] [].
Definition later : Dashboard.t :=
  Dashboard.mk [taken_A; missed_B] [missed_B] [low_B].

Definition showing (d : Dashboard.t) : CaregiverView.state :=
  {| CaregiverView.patientId := "demo-patient"; CaregiverView.data := Some d;
     CaregiverView.loading := false; CaregiverView.error := "" |}.

Definition serving (d : Dashboard.t) : Network := {|
  senior_today := λ _ _,
    Resolved {| ok := false; Response_json := inl {| message := "" |} |};
  senior_confirm := λ _ _,
    Resolved {| ok := false; Response_json := inl {| message := "" |} |};
  caregiver_dashboard := λ _ _,
    Resolved {| ok := true; Response_json := inr d |}
|}.

End DemoDashboard.

(** * Properties *)

(** ** The concrete host *)

Example getTime_epoch : Demo.getTime "1970-01-01T00:00:00Z" = Some 0.
Proof. vm_compute. reflexivity. Qed.

Example getTime_scenario :
  Demo.getTime "2024-01-01T08:00:00Z" = Some 1704096000000
  ∧ Demo.getTime "2024-01-01T12:00:00Z" = Some 1704110400000
  ∧ Demo.getTime "2024-01-01T20:00:00Z" = Some 1704139200000.
Proof. vm_compute. done. Qed.

Example getTime_not_a_date :
  Demo.getTime "soon" = None ∧ Demo.getTime "2024-02-30T08:00:00Z" = None.
Proof. vm_compute. done. Qed.

Example API_BASE_default : @API_BASE Demo.host = "http://localhost:8000".
Proof. reflexivity. Qed.

(** ** Sorting *)

Section sorting.
Context {A : Type} (comparefn : A → A → option Z).

Lemma sort_insert_perm x l : sort_insert comparefn x l ≡ₚ x :: l.
Proof.
  induction l as [|y l IH]; simpl; [done|].
  case_decide; [done|]. rewrite IH. apply Permutation_swap.
Qed.

Lemma Array_sort_perm l : Array_sort comparefn l ≡ₚ l.
Proof.
  induction l as [|x l IH]; simpl; [done|].
  rewrite sort_insert_perm. by f_equiv.
Qed.

Lemma Array_sort_length l : length (Array_sort comparefn l) = length l.
Proof. by rewrite Array_sort_perm. Qed.

Lemma head_sort_insert x l :
  head (sort_insert comparefn x l) =
  match head l with
  | None => Some x
  | Some y => if decide (SortCompare comparefn x y ≤ 0) then Some x else Some y
  end.
Proof. destruct l as [|y l]; simpl; [done|]. by case_decide. Qed.

Lemma head_Array_sort l :
  head (Array_sort comparefn l) = front comparefn l.
Proof.
  induction l as [|x l IH]; simpl; [done|].
  by rewrite head_sort_insert, IH.
Qed.

(* With a comparator that is the difference of a key, index 0 holds the
   first of the elements of least key. *)
Lemma front_least (k : A → Z) l :
  (∀ x y, x ∈ l → y ∈ l → SortCompare comparefn x y = k x - k y) →
  l ≠ [] →
  ∃ l1 r l2, front comparefn l = Some r ∧ l = l1 ++ r :: l2
             ∧ Forall (λ i, k r < k i) l1 ∧ Forall (λ i, k r ≤ k i) l2.
Proof.
  induction l as [|x l IH]; intros Hk Hne; [done|]. simpl.
  destruct l as [|y l'].
  { exists [], x, []. by repeat split. }
  destruct IH as (l1 & r & l2 & Hf & Hl & H1 & H2); [|done|].
  { intros a b Ha Hb. apply Hk; by right. }
  rewrite Hf.
  assert (r ∈ y :: l') as Hr by (rewrite Hl; set_solver).
  rewrite Hk by (by left || by right).
  case_decide as Hle.
  - exists [], x, (y :: l'). repeat split; [constructor|].
    rewrite Hl. apply Forall_app. split.
    + eapply Forall_impl; [exact H1|]. simpl. lia.
    + constructor; [lia|]. eapply Forall_impl; [exact H2|]. simpl. lia.
  - exists (x :: l1), r, l2. rewrite Hl. repeat split; [|done].
    constructor; [lia|done].
Qed.

(* With such a comparator the result is in the order of the key. *)
Lemma Array_sort_sorted (k : A → Z) l :
  (∀ x y, x ∈ l → y ∈ l → SortCompare comparefn x y = k x - k y) →
  StronglySorted (λ a b, k a ≤ k b) (Array_sort comparefn l).
Proof.
  induction l as [|x l IH]; intros Hk; simpl; [constructor|].
  assert (StronglySorted (λ a b, k a ≤ k b) (Array_sort comparefn l)) as Hs.
  { apply IH. intros a b Ha Hb. apply Hk; by right. }
  assert (∀ y, y ∈ Array_sort comparefn l →
               SortCompare comparefn x y = k x - k y) as Hx.
  { intros y Hy. rewrite Array_sort_perm in Hy. apply Hk; [by left|by right]. }
  clear IH Hk. induction Hs as [|y s Hs IH Hall]; simpl.
  - repeat constructor.
  - rewrite Hx by (by left). case_decide as Hle.
    + constructor; [by constructor|]. constructor; [lia|].
      eapply Forall_impl; [exact Hall|]. simpl. lia.
    + constructor.
      * apply IH. intros z Hz. apply Hx. by right.
      * rewrite sort_insert_perm. constructor; [lia|done].
Qed.

End sorting.

(** ** C1: the next pending dose *)

Section next_pending.
Context `{Host}.
Import SeniorView.

Lemma by_scheduled_time_valid a b :
  valid_time a → valid_time b →
  SortCompare by_scheduled_time a b = time_of a - time_of b.
Proof.
  intros [x Hx] [y Hy].
  unfold SortCompare, by_scheduled_time, time_of. by rewrite Hx, Hy.
Qed.

Lemma nextPending_items st items :
  DailyStatus.items st = Some items →
  nextPending (Some st) =
    if decide (filter not_taken items = []) then None
    else front by_scheduled_time (filter not_taken items).
Proof.
  intros Hi. unfold nextPending. simpl. rewrite Hi.
  rewrite <- head_Array_sort.
  destruct (filter not_taken items) as [|i l]; [done|].
  by rewrite !decide_False.
Qed.

(* Ties: the result is the first, in the order of [items], of the non-taken
   items of least time. *)
Lemma nextPending_first_of_least st items :
  DailyStatus.items st = Some items →
  (∀ i, i ∈ items → not_taken i → valid_time i) →
  filter not_taken items ≠ [] →
  ∃ l1 r l2, nextPending (Some st) = Some r
    ∧ filter not_taken items = l1 ++ r :: l2
    ∧ Forall (λ i, time_of r < time_of i) l1
    ∧ Forall (λ i, time_of r ≤ time_of i) l2.
Proof.
  intros Hi Hv Hne. rewrite (nextPending_items _ _ Hi), decide_False by done.
  apply front_least; [|done].
  intros x y Hx Hy. apply list_elem_of_filter in Hx as [??], Hy as [??].
  apply by_scheduled_time_valid; by apply Hv.
Qed.

End next_pending.

(** C1.  For a Daily Status that has an item collection whose non-taken
    items carry scheduled times that [Date] can read, the next pending dose
    is none when no item is left after filtering out the taken ones, and
    otherwise it is one of the non-taken items and no non-taken item has an
    earlier scheduled time. *)
Theorem nextPending_earliest_not_taken `{Host} (st : DailyStatus.t)
  (items : list DoseItem.t) :
  DailyStatus.items st = Some items →
  (∀ i, i ∈ items → SeniorView.not_taken i → valid_time i) →
  (filter SeniorView.not_taken items = [] →
     SeniorView.nextPending (Some st) = None)
  ∧ (filter SeniorView.not_taken items ≠ [] →
     ∃ r, SeniorView.nextPending (Some st) = Some r
          ∧ r ∈ filter SeniorView.not_taken items
          ∧ ∀ i, i ∈ filter SeniorView.not_taken items →
                 ∃ tr ti, Date_getTime (DoseItem.scheduled_time r) = Some tr
                          ∧ Date_getTime (DoseItem.scheduled_time i) = Some ti
                          ∧ tr ≤ ti).
Proof.
  intros Hi Hv. split.
  - intros He. by rewrite (nextPending_items _ _ Hi), decide_True.
  - intros Hne.
    destruct (nextPending_first_of_least st items Hi Hv Hne)
      as (l1 & r & l2 & Hr & Hl & H1 & H2).
    assert (∀ i, i ∈ filter SeniorView.not_taken items → valid_time i) as Hv'.
    { intros i [??]%list_elem_of_filter. by apply Hv. }
    assert (r ∈ filter SeniorView.not_taken items) as Hin
      by (rewrite Hl; set_solver).
    exists r. split; [done|]. split; [done|].
    intros i Hin'.
    destruct (Hv' r Hin) as [tr Htr], (Hv' i Hin') as [ti Hti].
    exists tr, ti. split; [done|]. split; [done|].
    assert (time_of r ≤ time_of i) as Hle.
    { rewrite Hl in Hin'. apply elem_of_app in Hin' as [Hin'|Hin'].
      - rewrite Forall_forall in H1. specialize (H1 i Hin'). lia.
      - apply elem_of_cons in Hin' as [->|Hin']; [lia|].
        rewrite Forall_forall in H2. by apply H2. }
    unfold time_of in Hle. by rewrite Htr, Hti in Hle.
Qed.

(* Outside that domain, on two items: a scheduled time that [Date] cannot
   read compares as equal to the other (NaN is read as +0), so the two keep
   their order and the unreadable one, listed first, is at index 0. *)
Example nextPending_unreadable_time :
  @SeniorView.nextPending Demo.host
    (Some (DailyStatus.mk None None
             (Some [DoseItem.mk "X" "soon" "pending"; Demo.dose_B])))
  = Some (DoseItem.mk "X" "soon" "pending").
Proof. vm_compute. reflexivity. Qed.

(* The example scenario: medication C, at 12:00, is next. *)
Lemma nextPending_earliest_not_taken_witness :
  DailyStatus.items Demo.scenario
    = Some [Demo.dose_A; Demo.dose_B; Demo.dose_C]
  ∧ @SeniorView.nextPending Demo.host (Some Demo.scenario) = Some Demo.dose_C
  ∧ ((filter SeniorView.not_taken [Demo.dose_A; Demo.dose_B; Demo.dose_C] = [] →
        @SeniorView.nextPending Demo.host (Some Demo.scenario) = None)
     ∧ (filter SeniorView.not_taken [Demo.dose_A; Demo.dose_B; Demo.dose_C] ≠ [] →
        ∃ r, @SeniorView.nextPending Demo.host (Some Demo.scenario) = Some r
             ∧ r ∈ filter SeniorView.not_taken
                     [Demo.dose_A; Demo.dose_B; Demo.dose_C]
             ∧ ∀ i, i ∈ filter SeniorView.not_taken
                          [Demo.dose_A; Demo.dose_B; Demo.dose_C] →
                    ∃ tr ti,
                      Demo.getTime (DoseItem.scheduled_time r) = Some tr
                      ∧ Demo.getTime (DoseItem.scheduled_time i) = Some ti
                      ∧ tr ≤ ti)).
Proof.
  split; [reflexivity|]. split; [vm_compute; reflexivity|].
  apply (@nextPending_earliest_not_taken Demo.host Demo.scenario
           [Demo.dose_A; Demo.dose_B; Demo.dose_C]); [reflexivity|].
  intros i Hi _.
  repeat (apply elem_of_cons in Hi as [->|Hi]);
    [eexists; vm_compute; reflexivity ..|].
  by apply elem_of_nil in Hi.
Defined.

(** ** What the handlers do, step by step *)

Ltac run_handler :=
  unfold try_catch_finally, await_fetch, await_json, throw, set_state,
    mbind, M_bind, mret, M_ret; simpl.

Section senior_steps.
Context `{Host} (net : Network).
Import SeniorView.

Lemma fetchStatus_run c w :
  fetchStatus net c w = (Return (), fetchStatus_end net c w).
Proof.
  unfold fetchStatus, fetchStatus_end, fetch_outcome, today_request, setLoading,
    setError, setStatus.
  run_handler. rewrite <- !app_assoc. simpl.
  destruct (senior_today net _ _) as [e|[[] [e|d]]]; simpl;
    rewrite <- ?app_assoc; reflexivity.
Qed.

Lemma handleConfirm_run c np w :
  nextPending (status c) = Some np →
  handleConfirm net c w = (Return (), handleConfirm_end net c np w).
Proof.
  intros Hnp. unfold handleConfirm, handleConfirm_end, post_outcome,
    confirm_request. rewrite Hnp.
  unfold setLoading, setError. run_handler. rewrite <- !app_assoc. simpl.
  destruct (senior_confirm net _ _) as [e|[[] j]]; simpl;
    rewrite <- ?app_assoc; try reflexivity.
  rewrite fetchStatus_run. reflexivity.
Qed.

Lemma handleConfirm_none c w :
  nextPending (status c) = None → handleConfirm net c w = (Return (), w).
Proof. intros Hnp. unfold handleConfirm. by rewrite Hnp. Qed.

End senior_steps.

Section caregiver_steps.
Context `{Host} (net : Network).
Import CaregiverView.

Lemma fetchData_run c w :
  fetchData net c w = (Return (), fetchData_end net c w).
Proof.
  unfold fetchData, fetchData_end, fetch_outcome, dashboard_request, setLoading,
    setError, setData.
  run_handler. rewrite <- !app_assoc. simpl.
  destruct (caregiver_dashboard net _ _) as [e|[[] [e|d]]]; simpl;
    rewrite <- ?app_assoc; reflexivity.
Qed.

End caregiver_steps.

(** ** C2, C3, C4: Confirm *)

(** C2.  When a next pending dose exists, the first and only POST of
    [handleConfirm] goes to the confirmation endpoint and its body is the
    object of exactly [user_id], [medication_id] and [scheduled_time_iso],
    holding the patient identifier and the medication identifier and
    scheduled time of the next pending dose. *)
Theorem handleConfirm_posts_triple `{Host} (net : Network)
  (c : SeniorView.state) (w : World SeniorView.state) (np : DoseItem.t) :
  SeniorView.nextPending (SeniorView.status c) = Some np →
  confirm_request (SeniorView.userId c) (DoseItem.medication_id np)
      (DoseItem.scheduled_time np)
    = {| url := API_BASE +:+ "/api/senior/confirm";
         method := POST;
         headers := [("Content-Type", "application/json")];
         body := Some (JSON_stringify
                   [("user_id", JString (SeniorView.userId c));
                    ("medication_id", JString (DoseItem.medication_id np));
                    ("scheduled_time_iso",
                     JString (DoseItem.scheduled_time np))]) |}
  ∧ ∃ rest,
      trace (after (SeniorView.handleConfirm net c) w)
        = trace w
          ++ [SetLoading true; SetError "";
              Fetch (confirm_request (SeniorView.userId c)
                       (DoseItem.medication_id np)
                       (DoseItem.scheduled_time np))]
          ++ rest
      ∧ ∀ r, Fetch r ∈ rest → method r = GET.
Proof.
  intros Hnp. split; [reflexivity|].
  unfold after. rewrite (handleConfirm_run net c np w Hnp). simpl.
  unfold handleConfirm_end, fetchStatus_end. simpl.
  destruct (post_outcome _ _) as [e|]; simpl.
  - eexists. rewrite <- app_assoc. simpl. split; [reflexivity|].
    intros r Hr. repeat (apply elem_of_cons in Hr as [Hr|Hr]; [done|]).
    by apply elem_of_nil in Hr.
  - destruct (fetch_outcome _ _) as [e|d]; simpl;
      (eexists; rewrite <- !app_assoc; simpl; split; [reflexivity|]);
      intros r Hr;
      (apply elem_of_cons in Hr as [Hr|Hr]; [done|]);
      (apply elem_of_cons in Hr as [Hr|Hr]; [done|]);
      (apply elem_of_cons in Hr as [Hr|Hr]; [by simplify_eq|]);
      repeat (apply elem_of_cons in Hr as [Hr|Hr]; [done|]);
      by apply elem_of_nil in Hr.
Qed.

(* The example scenario: the body names medication C at 12:00. *)
Lemma handleConfirm_posts_triple_witness :
  @SeniorView.nextPending Demo.host
      (SeniorView.status (Demo.showing (Some Demo.scenario)))
    = Some Demo.dose_C
  ∧ (@confirm_request Demo.host "demo-patient" "C" "2024-01-01T12:00:00Z"
       = {| url := "http://localhost:8000/api/senior/confirm";
            method := POST;
            headers := [("Content-Type", "application/json")];
            body := Some (JSON_stringify
                      [("user_id", JString "demo-patient");
                       ("medication_id", JString "C");
                       ("scheduled_time_iso",
                        JString "2024-01-01T12:00:00Z")]) |}
     ∧ ∃ rest,
         trace (after (@SeniorView.handleConfirm Demo.host
                         (Demo.serving Demo.all_taken)
                         (Demo.showing (Some Demo.scenario)))
                  (Demo.world (Demo.showing (Some Demo.scenario))))
           = [] ++ [SetLoading true; SetError "";
                    Fetch (@confirm_request Demo.host "demo-patient" "C"
                             "2024-01-01T12:00:00Z")]
                ++ rest
         ∧ ∀ r, Fetch r ∈ rest → method r = GET).
Proof.
  split; [vm_compute; reflexivity|].
  apply (@handleConfirm_posts_triple Demo.host (Demo.serving Demo.all_taken)
           (Demo.showing (Some Demo.scenario))
           (Demo.world (Demo.showing (Some Demo.scenario))) Demo.dose_C).
  vm_compute; reflexivity.
Defined.

(** C3.  When no next pending dose exists, [handleConfirm] returns at once:
    nothing is added to the trace (so no network call is made) and the view
    state, status, error and loading included, is what it was. *)
Theorem handleConfirm_without_pending `{Host} (net : Network)
  (c : SeniorView.state) (w : World SeniorView.state) :
  SeniorView.nextPending (SeniorView.status c) = None →
  SeniorView.handleConfirm net c w = (Return (), w)
  ∧ trace (after (SeniorView.handleConfirm net c) w) = trace w
  ∧ view (after (SeniorView.handleConfirm net c) w) = view w.
Proof.
  intros Hnp. unfold after. by rewrite (handleConfirm_none net c w Hnp).
Qed.

Lemma handleConfirm_without_pending_witness :
  @SeniorView.nextPending Demo.host
      (SeniorView.status (Demo.showing (Some Demo.all_taken))) = None
  ∧ (@SeniorView.handleConfirm Demo.host (Demo.serving Demo.scenario)
        (Demo.showing (Some Demo.all_taken))
        (Demo.world (Demo.showing (Some Demo.all_taken)))
      = (Return (), Demo.world (Demo.showing (Some Demo.all_taken)))
     ∧ trace (after (@SeniorView.handleConfirm Demo.host
                       (Demo.serving Demo.scenario)
                       (Demo.showing (Some Demo.all_taken)))
                (Demo.world (Demo.showing (Some Demo.all_taken))))
         = trace (Demo.world (Demo.showing (Some Demo.all_taken)))
     ∧ view (after (@SeniorView.handleConfirm Demo.host
                      (Demo.serving Demo.scenario)
                      (Demo.showing (Some Demo.all_taken)))
               (Demo.world (Demo.showing (Some Demo.all_taken))))
         = view (Demo.world (Demo.showing (Some Demo.all_taken)))).
Proof.
  split; [vm_compute; reflexivity|].
  apply (@handleConfirm_without_pending Demo.host (Demo.serving Demo.scenario)
           (Demo.showing (Some Demo.all_taken))
           (Demo.world (Demo.showing (Some Demo.all_taken)))).
  vm_compute; reflexivity.
Defined.

(** C4.  When the confirmation POST resolves with a 2xx status, what
    [handleConfirm] does next is one reload: a single GET of the today-status
    endpoint follows the POST, no [fetch] comes after it, and the status cell
    is not written between the start of the handler and that GET. *)
Theorem handleConfirm_success_reloads_once `{Host} (net : Network)
  (c : SeniorView.state) (w : World SeniorView.state) (np : DoseItem.t)
  (res : Response unit) :
  SeniorView.nextPending (SeniorView.status c) = Some np →
  senior_confirm net (trace w ++ [SetLoading true; SetError ""])
    (confirm_request (SeniorView.userId c) (DoseItem.medication_id np)
       (DoseItem.scheduled_time np)) = Resolved res →
  ok res = true →
  let before_reload :=
    [SetLoading true; SetError "";
     Fetch (confirm_request (SeniorView.userId c) (DoseItem.medication_id np)
              (DoseItem.scheduled_time np));
     SetLoading true; SetError ""] in
  ∃ rest,
    trace (after (SeniorView.handleConfirm net c) w)
      = trace w ++ before_reload
        ++ Fetch (today_request (SeniorView.userId c)) :: rest
    ∧ (∀ d, SetStatus d ∉ before_reload)
    ∧ (∀ r, Fetch r ∉ rest).
Proof.
  intros Hnp Hpost Hok. simpl.
  unfold after. rewrite (handleConfirm_run net c np w Hnp). simpl.
  unfold handleConfirm_end. rewrite Hpost. simpl. rewrite Hok.
  unfold fetchStatus_end. simpl.
  destruct (fetch_outcome _ _) as [e|d]; simpl;
    (eexists; rewrite <- !app_assoc; simpl; split; [reflexivity|]); split;
    intros x Hx;
    repeat (apply elem_of_cons in Hx as [Hx|Hx]; [done|]);
    by apply elem_of_nil in Hx.
Qed.

Lemma handleConfirm_success_reloads_once_witness :
  @SeniorView.nextPending Demo.host
      (SeniorView.status (Demo.showing (Some Demo.scenario)))
    = Some Demo.dose_C
  ∧ ∃ rest,
      trace (after (@SeniorView.handleConfirm Demo.host
                      (Demo.serving Demo.all_taken)
                      (Demo.showing (Some Demo.scenario)))
               (Demo.world (Demo.showing (Some Demo.scenario))))
        = [] ++ [SetLoading true; SetError "";
                 Fetch (@confirm_request Demo.host "demo-patient" "C"
                          "2024-01-01T12:00:00Z");
                 SetLoading true; SetError ""]
             ++ Fetch (@today_request Demo.host "demo-patient") :: rest
      ∧ (∀ d, SetStatus d ∉
                [SetLoading true; SetError "";
                 Fetch (@confirm_request Demo.host "demo-patient" "C"
                          "2024-01-01T12:00:00Z");
                 SetLoading true; SetError ""])
      ∧ (∀ r, Fetch r ∉ rest).
Proof.
  split; [vm_compute; reflexivity|].
  apply (@handleConfirm_success_reloads_once Demo.host
           (Demo.serving Demo.all_taken) (Demo.showing (Some Demo.scenario))
           (Demo.world (Demo.showing (Some Demo.scenario))) Demo.dose_C
           {| ok := true; Response_json := inr () |});
    vm_compute; reflexivity.
Defined.

(** ** C5, C6, C7: failures *)

(** C5.  When the status fetch fails, by a response with a status outside
    2xx or by a rejected request (a rejection carries the message of its
    error, which is not empty), the status loaded before is left as it was
    and the error cell is set to a message that is not empty: the text
    "Failed to fetch status" in the first case, the message of the rejection
    in the second. *)
Theorem fetchStatus_failure_keeps_status `{Host} (net : Network)
  (c : SeniorView.state) (w : World SeniorView.state) :
  let answer :=
    senior_today net (trace w ++ [SetLoading true; SetError ""])
      (today_request (SeniorView.userId c)) in
  let w' := after (SeniorView.fetchStatus net c) w in
  (∃ res, answer = Resolved res ∧ ok res = false)
  ∨ (∃ e, answer = Rejected e ∧ message e ≠ "") →
  SeniorView.status (view w') = SeniorView.status (view w)
  ∧ SeniorView.error (view w') ≠ ""
  ∧ (∀ res, answer = Resolved res → ok res = false →
       SeniorView.error (view w') = "Failed to fetch status")
  ∧ (∀ e, answer = Rejected e → SeniorView.error (view w') = message e).
Proof.
  simpl. intros Hfail. unfold after. rewrite fetchStatus_run. simpl.
  unfold fetchStatus_end, fetch_outcome.
  destruct Hfail as [(res & Hres & Hok)|(e & He & Hne)].
  - rewrite Hres, Hok. simpl. split; [done|]. split; [done|].
    split; [done|]. intros e He. discriminate He.
  - rewrite He. simpl. split; [done|]. split; [done|].
    split; [intros res Hres; discriminate Hres|].
    intros e' He'. by simplify_eq.
Qed.

(* With the scenario loaded: a status outside 2xx, then a host that cannot
   be reached. *)
Lemma fetchStatus_failure_keeps_status_witness :
  (SeniorView.status
     (view (after (@SeniorView.fetchStatus Demo.host Demo.refusing
                     (Demo.showing (Some Demo.scenario)))
              (Demo.world (Demo.showing (Some Demo.scenario)))))
   = Some Demo.scenario
   ∧ SeniorView.error
       (view (after (@SeniorView.fetchStatus Demo.host Demo.refusing
                       (Demo.showing (Some Demo.scenario)))
                (Demo.world (Demo.showing (Some Demo.scenario)))))
     = "Failed to fetch status")
  ∧ (SeniorView.status
       (view (after (@SeniorView.fetchStatus Demo.host
                       (Demo.unreachable "Failed to fetch")
                       (Demo.showing (Some Demo.scenario)))
                (Demo.world (Demo.showing (Some Demo.scenario)))))
     = Some Demo.scenario
     ∧ SeniorView.error
         (view (after (@SeniorView.fetchStatus Demo.host
                         (Demo.unreachable "Failed to fetch")
                         (Demo.showing (Some Demo.scenario)))
                  (Demo.world (Demo.showing (Some Demo.scenario)))))
       = "Failed to fetch").
Proof.
  split.
  - destruct (@fetchStatus_failure_keeps_status Demo.host Demo.refusing
                (Demo.showing (Some Demo.scenario))
                (Demo.world (Demo.showing (Some Demo.scenario))))
      as (Hs & _ & He & _).
    + left. eexists. split; reflexivity.
    + split; [exact Hs|]. exact (He _ eq_refl eq_refl).
  - destruct (@fetchStatus_failure_keeps_status Demo.host
                (Demo.unreachable "Failed to fetch")
                (Demo.showing (Some Demo.scenario))
                (Demo.world (Demo.showing (Some Demo.scenario))))
      as (Hs & _ & _ & He).
    + right. eexists. split; [reflexivity|discriminate].
    + split; [exact Hs|]. exact (He _ eq_refl).
Defined.

Section panel_leaves.
Context `{Host}.

Lemma leaves_children tag attrs children :
  leaves (elem tag attrs children) = concat (leaves <$> children).
Proof.
  simpl. induction children as [|n l IH]; simpl; [done|]. by rewrite IH.
Qed.

(* What each row list shows, entry by entry. *)
Lemma history_rows_leaves d :
  concat (leaves <$> CaregiverView.history_rows d)
  = concat ((λ h,
       [leaf_text (HistoryEntry.medication_id h);
        leaf_text "Scheduled: ";
        leaf_text (match HistoryEntry.scheduled_time h with
                   | Some t => if truthy t then Date_toLocaleString t else "-"
                   | None => "-"
                   end);
        leaf_text (HistoryEntry.status h)]) <$> Dashboard.history d).
Proof.
  unfold CaregiverView.history_rows.
  induction (Dashboard.history d) as [|h l IH]; [done|].
  rewrite !fmap_cons. simpl. do 4 f_equal. exact IH.
Qed.

Lemma missed_rows_leaves d :
  concat (leaves <$> CaregiverView.missed_rows d)
  = (if decide (Dashboard.missed d = [])
     then [leaf_text "No missed doses in the last week."] else [])
    ++ concat ((λ m,
         [leaf_text (HistoryEntry.medication_id m);
          leaf_text (match HistoryEntry.scheduled_time m with
                     | Some t => if truthy t then Date_toLocaleString t else "-"
                     | None => "-"
                     end)]) <$> Dashboard.missed d).
Proof.
  unfold CaregiverView.missed_rows. rewrite fmap_app, concat_app. f_equal.
  - by destruct (Dashboard.missed d).
  - induction (Dashboard.missed d) as [|h l IH]; [done|].
    rewrite !fmap_cons. simpl. do 2 f_equal. exact IH.
Qed.

Lemma inventory_rows_leaves d :
  concat (leaves <$> CaregiverView.inventory_rows d)
  = (if decide (Dashboard.inventory_alerts d = [])
     then [leaf_text "All inventories look good."] else [])
    ++ concat ((λ a,
         [leaf_text (InventoryAlert.name a);
          leaf_number (InventoryAlert.inventory_count a);
          leaf_text " left (threshold ";
          leaf_number (InventoryAlert.low_threshold a);
          leaf_text ")";
          leaf_text "Low"]) <$> Dashboard.inventory_alerts d).
Proof.
  unfold CaregiverView.inventory_rows. rewrite fmap_app, concat_app. f_equal.
  - by destruct (Dashboard.inventory_alerts d).
  - induction (Dashboard.inventory_alerts d) as [|h l IH]; [done|].
    rewrite !fmap_cons. simpl. do 6 f_equal. exact IH.
Qed.

End panel_leaves.

(** C6.  A dashboard load that succeeds writes the data cell once, with the
    snapshot fetched, and what is rendered afterwards is the header and the
    three panels of that snapshot: the history list shows every entry of its
    history, the missed list every entry of its missed doses and the alert
    list every one of its inventory alerts, in the snapshot's order and with
    nothing of the snapshot shown before (the empty-state text standing in
    for an empty missed or alert collection).  A load that fails sets the
    error cell to the message of the exception and leaves the data cell as
    it was. *)
Theorem fetchData_replaces_or_retains `{Host} (net : Network)
  (c : CaregiverView.state) (w : World CaregiverView.state) :
  let answer :=
    fetch_outcome "Failed to load dashboard"
      (caregiver_dashboard net (trace w ++ [SetLoading true; SetError ""])
         (dashboard_request (CaregiverView.patientId c))) in
  let w' := after (CaregiverView.fetchData net c) w in
  let shown_time := λ t : option string,
    match t with
    | Some s => if truthy s then Date_toLocaleString s else "-"
    | None => "-"
    end in
  (∀ d, answer = inr d →
     view w' = {| CaregiverView.patientId := CaregiverView.patientId (view w);
                  CaregiverView.data := Some d;
                  CaregiverView.loading := false;
                  CaregiverView.error := "" |}
     ∧ trace w' = trace w
         ++ [SetLoading true; SetError "";
             Fetch (dashboard_request (CaregiverView.patientId c));
             SetData d; SetLoading false]
     ∧ (∃ header history_list missed_list alert_list,
          CaregiverView.render (view w')
          = elem "div" [className "max-w-5xl mx-auto p-6"]
              [header;
               elem "div" [className "grid md:grid-cols-3 gap-6"]
                 [elem "div"
                    [className "col-span-2 bg-white rounded-xl shadow p-5"]
                    [elem "h2" [className "font-semibold mb-3"]
                       [text "Medication History (30 days)"];
                     elem "div"
                       [className "space-y-2 max-h-96 overflow-auto"]
                       history_list];
                  elem "div" [className "space-y-6"]
                    [elem "div" [className "bg-white rounded-xl shadow p-5"]
                       [elem "h2" [className "font-semibold mb-3"]
                          [text "Missed Doses (7 days)"];
                        elem "div" [className "space-y-2"] missed_list];
                     elem "div" [className "bg-white rounded-xl shadow p-5"]
                       [elem "h2" [className "font-semibold mb-3"]
                          [text "Inventory Alerts"];
                        elem "div" [className "space-y-2"] alert_list]]]]
          ∧ omap row_key history_list
            = HistoryEntry.id <$> Dashboard.history d
          ∧ concat (leaves <$> history_list)
            = concat ((λ h,
                [leaf_text (HistoryEntry.medication_id h);
                 leaf_text "Scheduled: ";
                 leaf_text (shown_time (HistoryEntry.scheduled_time h));
                 leaf_text (HistoryEntry.status h)]) <$> Dashboard.history d)
          ∧ omap row_key missed_list
            = HistoryEntry.id <$> Dashboard.missed d
          ∧ concat (leaves <$> missed_list)
            = (if decide (Dashboard.missed d = [])
               then [leaf_text "No missed doses in the last week."] else [])
              ++ concat ((λ m,
                   [leaf_text (HistoryEntry.medication_id m);
                    leaf_text (shown_time (HistoryEntry.scheduled_time m))])
                 <$> Dashboard.missed d)
          ∧ omap row_key alert_list
            = InventoryAlert.medication_id <$> Dashboard.inventory_alerts d
          ∧ concat (leaves <$> alert_list)
            = (if decide (Dashboard.inventory_alerts d = [])
               then [leaf_text "All inventories look good."] else [])
              ++ concat ((λ a,
                   [leaf_text (InventoryAlert.name a);
                    leaf_number (InventoryAlert.inventory_count a);
                    leaf_text " left (threshold ";
                    leaf_number (InventoryAlert.low_threshold a);
                    leaf_text ")";
                    leaf_text "Low"]) <$> Dashboard.inventory_alerts d)))
  ∧ (∀ e, answer = inl e →
       CaregiverView.data (view w') = CaregiverView.data (view w)
       ∧ CaregiverView.error (view w') = message e
       ∧ trace w' = trace w
           ++ [SetLoading true; SetError "";
               Fetch (dashboard_request (CaregiverView.patientId c));
               SetError (message e); SetLoading false]).
Proof.
  simpl. unfold after. rewrite fetchData_run. simpl. unfold fetchData_end.
  split.
  - intros d Hd. rewrite Hd. simpl. rewrite <- app_assoc.
    split; [done|]. split; [done|].
    eexists _, (CaregiverView.history_rows d), (CaregiverView.missed_rows d),
      (CaregiverView.inventory_rows d).
    split; [reflexivity|].
    split; [|split; [apply history_rows_leaves|]].
    { unfold CaregiverView.history_rows.
      induction (Dashboard.history d) as [|h l IH]; [done|].
      rewrite !fmap_cons. simpl. f_equal. exact IH. }
    split; [|split; [apply missed_rows_leaves|]].
    { unfold CaregiverView.missed_rows. rewrite omap_app.
      replace (omap row_key
                 (if decide (length (Dashboard.missed d) = 0%nat)
                  then [elem "p" [className "text-sm text-gray-600"]
                          [text "No missed doses in the last week."]]
                  else [])) with (@nil string) by by case_decide.
      simpl. induction (Dashboard.missed d) as [|h l IH]; [done|].
      rewrite !fmap_cons. simpl. f_equal. exact IH. }
    split; [|apply inventory_rows_leaves].
    unfold CaregiverView.inventory_rows. rewrite omap_app.
    replace (omap row_key
               (if decide (length (Dashboard.inventory_alerts d) = 0%nat)
                then [elem "p" [className "text-sm text-gray-600"]
                        [text "All inventories look good."]]
                else [])) with (@nil string) by by case_decide.
    simpl. induction (Dashboard.inventory_alerts d) as [|h l IH]; [done|].
    rewrite !fmap_cons. simpl. f_equal. exact IH.
  - intros e He. rewrite He. simpl. rewrite <- app_assoc. done.
Qed.

(* With one dashboard shown: a load that brings a later one, with an entry
   in each panel, replaces it; a load that fails keeps it. *)
Lemma fetchData_replaces_or_retains_witness :
  (CaregiverView.data
     (view (after (@CaregiverView.fetchData Demo.host
                     (DemoDashboard.serving DemoDashboard.later)
                     (DemoDashboard.showing DemoDashboard.before))
              (Demo.world (DemoDashboard.showing DemoDashboard.before))))
   = Some DemoDashboard.later
   ∧ ∃ header history_list missed_list alert_list,
       @CaregiverView.render Demo.host
         (view (after (@CaregiverView.fetchData Demo.host
                         (DemoDashboard.serving DemoDashboard.later)
                         (DemoDashboard.showing DemoDashboard.before))
                  (Demo.world (DemoDashboard.showing DemoDashboard.before))))
       = elem "div" [className "max-w-5xl mx-auto p-6"]
           [header;
            elem "div" [className "grid md:grid-cols-3 gap-6"]
              [elem "div"
                 [className "col-span-2 bg-white rounded-xl shadow p-5"]
                 [elem "h2" [className "font-semibold mb-3"]
                    [text "Medication History (30 days)"];
                  elem "div" [className "space-y-2 max-h-96 overflow-auto"]
                    history_list];
               elem "div" [className "space-y-6"]
                 [elem "div" [className "bg-white rounded-xl shadow p-5"]
                    [elem "h2" [className "font-semibold mb-3"]
                       [text "Missed Doses (7 days)"];
                     elem "div" [className "space-y-2"] missed_list];
                  elem "div" [className "bg-white rounded-xl shadow p-5"]
                    [elem "h2" [className "font-semibold mb-3"]
                       [text "Inventory Alerts"];
                     elem "div" [className "space-y-2"] alert_list]]]]
       ∧ omap row_key history_list = ["h1"; "h2"]
       ∧ concat (leaves <$> history_list)
         = [leaf_text "A"; leaf_text "Scheduled: ";
            leaf_text "2024-01-01T08:00:00Z"; leaf_text "taken";
            leaf_text "B"; leaf_text "Scheduled: "; leaf_text "-";
            leaf_text "missed"]
       ∧ omap row_key missed_list = ["h2"]
       ∧ concat (leaves <$> missed_list) = [leaf_text "B"; leaf_text "-"]
       ∧ omap row_key alert_list = ["B"]
       ∧ concat (leaves <$> alert_list)
         = [leaf_text "Beta"; leaf_number 2; leaf_text " left (threshold ";
            leaf_number 5; leaf_text ")"; leaf_text "Low"])
  ∧ (CaregiverView.data
       (view (after (@CaregiverView.fetchData Demo.host Demo.refusing
                       (DemoDashboard.showing DemoDashboard.before))
                (Demo.world (DemoDashboard.showing DemoDashboard.before))))
     = Some DemoDashboard.before
     ∧ CaregiverView.error
         (view (after (@CaregiverView.fetchData Demo.host Demo.refusing
                         (DemoDashboard.showing DemoDashboard.before))
                  (Demo.world (DemoDashboard.showing DemoDashboard.before))))
       = "Failed to load dashboard").
Proof.
  split.
  - destruct (proj1 (@fetchData_replaces_or_retains Demo.host
                       (DemoDashboard.serving DemoDashboard.later)
                       (DemoDashboard.showing DemoDashboard.before)
                       (Demo.world (DemoDashboard.showing DemoDashboard.before)))
                DemoDashboard.later eq_refl)
      as (Hv & _ & header & hl & ml & al & Hr & Hk1 & Hl1 & Hk2 & Hl2 & Hk3 & Hl3).
    split; [exact (f_equal CaregiverView.data Hv)|].
    exists header, hl, ml, al.
    split; [exact Hr|].
    split; [exact Hk1|]. split; [exact Hl1|].
    split; [exact Hk2|]. split; [exact Hl2|].
    split; [exact Hk3|exact Hl3].
  - destruct (proj2 (@fetchData_replaces_or_retains Demo.host Demo.refusing
                       (DemoDashboard.showing DemoDashboard.before)
                       (Demo.world (DemoDashboard.showing DemoDashboard.before)))
                {| message := "Failed to load dashboard" |} eq_refl)
      as (Hd & He & _).
    split; [exact Hd | exact He].
Defined.

(** C7, as the code has it.  No handler of either view lets an exception
    out: [fetchStatus], [handleConfirm] and [fetchData] always return.  A
    failed call sets the view's error cell to the message of the exception
    that reached the [catch]: the fixed text of the action for a status
    outside 2xx ("Failed to fetch status", "Failed to confirm dose",
    "Failed to load dashboard"), and the message of the rejection or of the
    JSON error otherwise. *)
Theorem failures_caught_at_the_action `{Host} (net : Network) :
  (∀ c w,
     (SeniorView.fetchStatus net c w).1 = Return ()
     ∧ ∀ e,
         fetch_outcome "Failed to fetch status"
           (senior_today net (trace w ++ [SetLoading true; SetError ""])
              (today_request (SeniorView.userId c))) = inl e →
         SeniorView.error (view (after (SeniorView.fetchStatus net c) w))
           = message e)
  ∧ (∀ c w,
       (SeniorView.handleConfirm net c w).1 = Return ()
       ∧ ∀ np e,
           SeniorView.nextPending (SeniorView.status c) = Some np →
           post_outcome "Failed to confirm dose"
             (senior_confirm net (trace w ++ [SetLoading true; SetError ""])
                (confirm_request (SeniorView.userId c)
                   (DoseItem.medication_id np) (DoseItem.scheduled_time np)))
             = Some e →
           SeniorView.error (view (after (SeniorView.handleConfirm net c) w))
             = message e)
  ∧ (∀ c w,
       (CaregiverView.fetchData net c w).1 = Return ()
       ∧ ∀ e,
           fetch_outcome "Failed to load dashboard"
             (caregiver_dashboard net (trace w ++ [SetLoading true; SetError ""])
                (dashboard_request (CaregiverView.patientId c))) = inl e →
           CaregiverView.error (view (after (CaregiverView.fetchData net c) w))
             = message e).
Proof.
  split; [|split]; intros c w.
  - unfold after. rewrite fetchStatus_run. split; [done|].
    intros e He. simpl. unfold fetchStatus_end. by rewrite He.
  - split.
    + destruct (SeniorView.nextPending (SeniorView.status c)) as [np|] eqn:Hnp.
      * by rewrite (handleConfirm_run net c np w Hnp).
      * by rewrite (handleConfirm_none net c w Hnp).
    + intros np e Hnp He. unfold after.
      rewrite (handleConfirm_run net c np w Hnp). simpl.
      unfold handleConfirm_end. by rewrite He.
  - unfold after. rewrite fetchData_run. split; [done|].
    intros e He. simpl. unfold fetchData_end. by rewrite He.
Qed.

Lemma failures_caught_at_the_action_witness :
  SeniorView.error
    (view (after (@SeniorView.fetchStatus Demo.host
                    (Demo.garbling "Unexpected end of JSON input")
                    SeniorView.initial)
             (Demo.world SeniorView.initial)))
    = "Unexpected end of JSON input"
  ∧ SeniorView.error
      (view (after (@SeniorView.handleConfirm Demo.host Demo.refusing
                      (Demo.showing (Some Demo.scenario)))
               (Demo.world (Demo.showing (Some Demo.scenario)))))
    = "Failed to confirm dose".
Proof.
  split.
  - exact (proj2 (proj1 (@failures_caught_at_the_action Demo.host
                           (Demo.garbling "Unexpected end of JSON input"))
                    SeniorView.initial (Demo.world SeniorView.initial))
             {| message := "Unexpected end of JSON input" |} eq_refl).
  - refine (proj2 (proj1 (proj2 (@failures_caught_at_the_action Demo.host
                                   Demo.refusing))
                     (Demo.showing (Some Demo.scenario))
                     (Demo.world (Demo.showing (Some Demo.scenario))))
              Demo.dose_C {| message := "Failed to confirm dose" |} _ eq_refl).
    vm_compute; reflexivity.
Defined.

(** C7, as stated, fails: the message shown is not one and the same.  A
    status outside 2xx, a rejected request and a body that is not JSON leave
    three different texts in the error cell of the same view, and the two
    views show different texts for the same status outside 2xx. *)
Lemma failure_messages_differ :
  SeniorView.error
    (view (after (@SeniorView.fetchStatus Demo.host Demo.refusing
                    SeniorView.initial)
             (Demo.world SeniorView.initial)))
    = "Failed to fetch status"
  ∧ SeniorView.error
      (view (after (@SeniorView.fetchStatus Demo.host
                      (Demo.unreachable "Load failed") SeniorView.initial)
               (Demo.world SeniorView.initial)))
    = "Load failed"
  ∧ SeniorView.error
      (view (after (@SeniorView.fetchStatus Demo.host
                      (Demo.garbling "Unexpected end of JSON input")
                      SeniorView.initial)
               (Demo.world SeniorView.initial)))
    = "Unexpected end of JSON input"
  ∧ CaregiverView.error
      (view (after (@CaregiverView.fetchData Demo.host Demo.refusing
                      CaregiverView.initial)
               (Demo.world CaregiverView.initial)))
    = "Failed to load dashboard"
  ∧ SeniorView.error
      (view (after (@SeniorView.fetchStatus Demo.host Demo.refusing
                      SeniorView.initial)
               (Demo.world SeniorView.initial)))
    ≠ SeniorView.error
        (view (after (@SeniorView.fetchStatus Demo.host
                        (Demo.unreachable "Load failed") SeniorView.initial)
                 (Demo.world SeniorView.initial))).
Proof. repeat split; [reflexivity ..|]. vm_compute. discriminate. Qed.

(** ** C8: empty collections in the caregiver panels *)

(** C8, as the code has it.  When the panels are rendered (a snapshot is
    loaded and no load is running), the missed-doses list and the
    inventory-alerts list each hold their empty-state paragraph, and nothing
    else, when their collection is empty. *)
Theorem empty_state_of_the_panels `{Host} (c : CaregiverView.state)
  (d : Dashboard.t) :
  CaregiverView.loading c = false →
  CaregiverView.data c = Some d →
  (∃ above, CaregiverView.render c
            = elem "div" [className "max-w-5xl mx-auto p-6"]
                (above ++ [CaregiverView.panels d]))
  ∧ (Dashboard.missed d = [] →
       CaregiverView.missed_rows d
         = [elem "p" [className "text-sm text-gray-600"]
              [text "No missed doses in the last week."]])
  ∧ (Dashboard.inventory_alerts d = [] →
       CaregiverView.inventory_rows d
         = [elem "p" [className "text-sm text-gray-600"]
              [text "All inventories look good."]]).
Proof.
  intros Hl Hd. split; [|split].
  - unfold CaregiverView.render. rewrite Hl, Hd. simpl.
    destruct (truthy (CaregiverView.error c)); simpl.
    + match goal with
      | |- ∃ above, elem _ _ (?a :: ?b :: _) = _ => by exists [a; b]
      end.
    + match goal with
      | |- ∃ above, elem _ _ (?a :: _) = _ => by exists [a]
      end.
  - intros He. unfold CaregiverView.missed_rows. by rewrite He.
  - intros He. unfold CaregiverView.inventory_rows. by rewrite He.
Qed.

Lemma empty_state_of_the_panels_witness :
  @CaregiverView.missed_rows Demo.host (Dashboard.mk [] [] [])
    = [elem "p" [className "text-sm text-gray-600"]
         [text "No missed doses in the last week."]]
  ∧ CaregiverView.inventory_rows (Dashboard.mk [] [] [])
    = [elem "p" [className "text-sm text-gray-600"]
         [text "All inventories look good."]].
Proof.
  pose proof (@empty_state_of_the_panels Demo.host
                {| CaregiverView.patientId := "demo-patient";
                   CaregiverView.data := Some (Dashboard.mk [] [] []);
                   CaregiverView.loading := false;
                   CaregiverView.error := "" |}
                (Dashboard.mk [] [] []) eq_refl eq_refl)
    as (_ & Hm & Hi).
  split; [exact (Hm eq_refl) | exact (Hi eq_refl)].
Defined.

(** C8, as stated, fails for the history panel: with an empty history its
    list has no child at all, where the missed-doses list of the same
    snapshot has its empty-state paragraph. *)
Lemma history_panel_has_no_empty_state :
  @CaregiverView.history_rows Demo.host (Dashboard.mk [] [] []) = []
  ∧ @CaregiverView.panels Demo.host (Dashboard.mk [] [] [])
    = elem "div" [className "grid md:grid-cols-3 gap-6"]
        [elem "div" [className "col-span-2 bg-white rounded-xl shadow p-5"]
           [elem "h2" [className "font-semibold mb-3"]
              [text "Medication History (30 days)"];
            elem "div" [className "space-y-2 max-h-96 overflow-auto"] []];
         elem "div" [className "space-y-6"]
           [elem "div" [className "bg-white rounded-xl shadow p-5"]
              [elem "h2" [className "font-semibold mb-3"]
                 [text "Missed Doses (7 days)"];
               elem "div" [className "space-y-2"]
                 [elem "p" [className "text-sm text-gray-600"]
                    [text "No missed doses in the last week."]]];
            elem "div" [className "bg-white rounded-xl shadow p-5"]
              [elem "h2" [className "font-semibold mb-3"]
                 [text "Inventory Alerts"];
               elem "div" [className "space-y-2"]
                 [elem "p" [className "text-sm text-gray-600"]
                    [text "All inventories look good."]]]]].
Proof. split; reflexivity. Qed.

(** ** C10: no snapshot, or a snapshot without items *)

(* The button of [confirm_button] is the one the view shows when no load is
   running. *)
Lemma render_confirm_button `{Host} (c : SeniorView.state) :
  SeniorView.loading c = false →
  ∃ above taken below,
    SeniorViewRender.render c
    = elem "div" [className "w-full max-w-md mx-auto p-6"]
        (above
         ++ [elem "div" [className "bg-white rounded-2xl shadow p-6"]
               [taken; SeniorViewRender.confirm_button c;
                SeniorViewRender.next_dose_line c]]
         ++ below).
Proof.
  intros Hl. unfold SeniorViewRender.render. rewrite Hl.
  destruct (truthy (SeniorView.error c)); simpl.
  - match goal with
    | |- ∃ above taken below, elem _ _ (?a :: ?b :: elem _ _ (?t :: _) :: ?r) = _ =>
        by exists [a; b], t, r
    end.
  - match goal with
    | |- ∃ above taken below, elem _ _ (?a :: elem _ _ (?t :: _) :: ?r) = _ =>
        by exists [a], t, r
    end.
Qed.

(** C10.  When the status cell is null, or holds a snapshot whose [items]
    is missing or null, the next pending dose is none (on the store too,
    where a failure would show as [None]), the Confirm button is disabled,
    and [handleConfirm] returns with the state and the trace untouched. *)
Theorem no_items_no_pending `{Host} (c : SeniorView.state) :
  SeniorView.status c = None
  ∨ (∃ st, SeniorView.status c = Some st ∧ DailyStatus.items st = None) →
  SeniorView.nextPending (SeniorView.status c) = None
  ∧ SeniorViewRender.confirm_button c
    = elem "button"
        [onClick cb_handleConfirm; disabled true;
         className "w-full py-5 text-xl font-bold rounded-2xl transition-colors bg-gray-200 text-gray-500 cursor-not-allowed"]
        [text "Confirm"]
  ∧ (∀ net w, SeniorView.handleConfirm net c w = (Return (), w))
  ∧ (∀ h, Store.nextPending None h = Some (None, h))
  ∧ (∀ h s t n, h !! s = Some (Store.Status t n None) →
       Store.nextPending (Some s) h = Some (None, h)).
Proof.
  intros Hi.
  assert (SeniorView.nextPending (SeniorView.status c) = None) as Hnp.
  { unfold SeniorView.nextPending.
    destruct Hi as [->|(st & -> & Hi)]; simpl; [done|]. by rewrite Hi. }
  split; [done|]. split; [|split; [|split]].
  - unfold SeniorViewRender.confirm_button. by rewrite Hnp.
  - intros net w. by apply handleConfirm_none.
  - done.
  - intros h s t n Hs. unfold Store.nextPending, Store.get_status.
    by rewrite Hs.
Qed.

(* Before the first fetch, and after a 2xx answer without [items]. *)
Lemma no_items_no_pending_witness :
  (SeniorView.status SeniorView.initial = None
   ∧ @SeniorView.nextPending Demo.host (SeniorView.status SeniorView.initial)
     = None)
  ∧ (DailyStatus.items (DailyStatus.mk (Some 0) (Some 0) None) = None
     ∧ ∀ net w,
         @SeniorView.handleConfirm Demo.host net
           (Demo.showing (Some (DailyStatus.mk (Some 0) (Some 0) None))) w
         = (Return (), w)).
Proof.
  split; (split; [reflexivity|]).
  - exact (proj1 (@no_items_no_pending Demo.host SeniorView.initial
                    (or_introl eq_refl))).
  - exact (proj1 (proj2 (proj2 (@no_items_no_pending Demo.host
             (Demo.showing (Some (DailyStatus.mk (Some 0) (Some 0) None)))
             (or_intror (ex_intro _ _ (conj eq_refl eq_refl))))))).
Defined.

(** ** C9: nothing fetched is written to *)

Section sort_map.
Context {A B : Type} (f : A → B) (comparefn : B → B → option Z).

Lemma sort_insert_fmap x l :
  f <$> sort_insert (λ a b, comparefn (f a) (f b)) x l
  = sort_insert comparefn (f x) (f <$> l).
Proof.
  induction l as [|y l IH]; simpl; [done|].
  change (SortCompare (λ a b, comparefn (f a) (f b)) x y)
    with (SortCompare comparefn (f x) (f y)).
  case_decide; simpl; [done|]. f_equal. exact IH.
Qed.

Lemma Array_sort_fmap l :
  f <$> Array_sort (λ a b, comparefn (f a) (f b)) l
  = Array_sort comparefn (f <$> l).
Proof.
  induction l as [|x l IH]; simpl; [done|].
  by rewrite sort_insert_fmap, IH.
Qed.

End sort_map.

Section store.
Context `{Host}.
Local Abbreviation stable_sort := Array_sort.
Import Store.
Implicit Types (h : gmap loc object) (eds : list (loc * DoseItem.t)).

Lemma mapM_get_item h eds :
  reads h eds → mapM (get_item h) eds.*1 = Some eds.*2.
Proof.
  intros Hr. apply mapM_Some. induction Hr as [|[e d] eds He _ IH]; simpl.
  - constructor.
  - by constructor.
Qed.

Lemma get_elems_reads h a eds :
  get_elems h a = Some eds → get_array h a = Some eds.*1 ∧ reads h eds.
Proof.
  unfold get_elems. intros Hg.
  destruct (get_array h a) as [es|]; simpl in Hg; [|done].
  destruct (mapM (get_item h) es) as [ds|] eqn:Hm; simpl in Hg; [|done].
  simplify_eq. apply mapM_Some in Hm. split.
  - rewrite fst_zip; [done|]. by rewrite (Forall2_length _ _ _ Hm).
  - induction Hm as [|e d es ds He _ IH]; by constructor.
Qed.

Lemma reads_get_elems h a eds :
  get_array h a = Some eds.*1 → reads h eds → get_elems h a = Some eds.
Proof.
  intros Ha Hr. unfold get_elems. rewrite Ha. simpl.
  rewrite (mapM_get_item _ _ Hr). simpl. by rewrite zip_fst_snd.
Qed.

Lemma reads_preserved h h' eds : preserves h h' → reads h eds → reads h' eds.
Proof.
  intros Hp Hr. eapply Forall_impl; [exact Hr|].
  intros [e d]. unfold get_item. simpl.
  destruct (h !! e) as [[]|] eqn:He; try done.
  intros ?. by rewrite (Hp _ _ He).
Qed.

Lemma preserves_alloc h o : preserves h (alloc o h).2.
Proof.
  intros l o' Hl. simpl. rewrite lookup_insert_ne; [done|].
  intros <-. assert (fresh (dom h) ∈ dom h) as Hin by (apply elem_of_dom; eauto).
  by apply is_fresh in Hin.
Qed.

Lemma load_status_preserved h h' s v :
  preserves h h' → load_status h s = Some v → load_status h' s = Some v.
Proof.
  intros Hp. unfold load_status, get_status.
  destruct (h !! s) as [[| |t n items]|] eqn:Hs; try done.
  rewrite (Hp _ _ Hs). simpl. destruct items as [a|]; [|done].
  destruct (get_elems h a) as [eds|] eqn:He; [|done]. simpl.
  apply get_elems_reads in He as [Ha Hr].
  rewrite (reads_get_elems h' a eds); [done| |by eapply reads_preserved].
  unfold get_array in *. destruct (h !! a) as [[]|] eqn:Hha; try done.
  by rewrite (Hp _ _ Hha).
Qed.

(* [nextPending] on the store returns, leaves every object of the store as
   it was, and its result is the item the derivation on values gives. *)
Lemma store_nextPending_reads_only h s v :
  load_status h s = Some v →
  ∃ r h', Store.nextPending (Some s) h = Some (r, h')
          ∧ preserves h h'
          ∧ r ≫= get_item h' = SeniorView.nextPending (Some v).
Proof.
  intros Hv. unfold load_status in Hv. unfold Store.nextPending.
  destruct (get_status h s) as [[[t n] items]|]; simpl in *; [|done].
  destruct items as [a|]; simplify_eq.
  2:{ exists None, h. split; [done|]. split; [by intros ??|done]. }
  destruct (get_elems h a) as [eds|] eqn:He; simpl in *; [|done].
  simplify_eq. unfold Array_filter. rewrite He. simpl.
  apply get_elems_reads in He as [Ha Hr].
  set (kept := filter (λ ed : loc * DoseItem.t, SeniorView.not_taken ed.2) eds).
  set (p := fresh (dom h)). set (h1 := <[p := Array kept.*1]> h).
  assert (preserves h h1) as Hp1 by apply (preserves_alloc h (Array kept.*1)).
  assert (reads h1 kept) as Hr1.
  { eapply reads_preserved; [done|].
    apply Forall_forall. intros ed Hed.
    apply list_elem_of_filter in Hed as [_ Hed].
    by apply (proj1 (Forall_forall _ _) Hr). }
  assert (get_array h1 p = Some kept.*1) as Hgp.
  { unfold get_array, h1. by rewrite lookup_insert_eq. }
  rewrite Hgp. simpl.
  assert (kept.*2 = filter SeniorView.not_taken eds.*2) as Hk.
  { unfold kept. clear. induction eds as [|[e d] eds IH]; [done|].
    rewrite fmap_cons, !filter_cons. simpl.
    case_decide; [rewrite fmap_cons|]; by rewrite IH. }
  unfold SeniorView.nextPending. simpl. rewrite <- Hk, !length_fmap.
  case_decide as Hlen.
  { exists None, h1. split; [done|]. split; [done|].
    destruct kept; [done|]. by simpl in Hlen. }
  unfold Store.Array_sort. rewrite (reads_get_elems h1 p kept Hgp Hr1). simpl.
  set (sorted := stable_sort
        (λ x y : loc * DoseItem.t, SeniorView.by_scheduled_time x.2 y.2) kept).
  unfold get_array. rewrite lookup_insert_eq. simpl.
  eexists _, _. split; [reflexivity|]. split.
  { intros l o Hl. rewrite lookup_insert_ne; [by apply Hp1|].
    intros <-. assert (fresh (dom h) ∈ dom h) as Hin by (apply elem_of_dom; eauto).
    by apply is_fresh in Hin. }
  rewrite <- (Array_sort_fmap snd SeniorView.by_scheduled_time kept).
  fold sorted. destruct sorted as [|[e d] rest] eqn:Hs; [done|]. simpl.
  assert ((e, d) ∈ kept) as Hin.
  { rewrite <- (Array_sort_perm
      (λ x y : loc * DoseItem.t, SeniorView.by_scheduled_time x.2 y.2) kept).
    fold sorted. rewrite Hs. by left. }
  apply list_elem_of_filter in Hin as [_ Hin].
  pose proof (proj1 (Forall_forall _ _) Hr _ Hin) as Hed. simpl in Hed.
  unfold get_item in *. destruct (h !! e) as [o|] eqn:Hhe; [|done].
  rewrite lookup_insert_ne.
  - by rewrite (Hp1 _ _ Hhe).
  - intros <-. assert (fresh (dom h) ∈ dom h) as Hf by (apply elem_of_dom; eauto).
    by apply is_fresh in Hf.
Qed.

End store.

(* [nextPending] answers the reference of C and leaves the status's array
   [A; B; C] in place; the array it sorted is the new one [filter] made. *)
Example scenario_store_nextPending :
  ∃ h', @Store.nextPending Demo.host (Some 1%positive) Demo.store
        = Some (Some 5%positive, h')
        ∧ h' !! 2%positive = Some (Store.Array [3; 4; 5]%positive)
        ∧ h' !! 6%positive = Some (Store.Array [5; 4]%positive).
Proof. eexists. split; [vm_compute; reflexivity|]. split; reflexivity. Qed.

(* [sort] does write its receiver: called on the status's own array it
   would have reordered the snapshot. *)
Example sort_writes_its_receiver :
  ∃ h', Store.Array_sort (@SeniorView.by_scheduled_time Demo.host) 2%positive
          Demo.store = Some (2%positive, h')
        ∧ h' !! 2%positive = Some (Store.Array [3; 5; 4]%positive).
Proof. eexists. split; [vm_compute; reflexivity|]. reflexivity. Qed.

(** C9.  No operation writes to what was fetched.  On a store, the
    next-pending-dose derivation returns, every object the store held (the
    status, its item array and the items among them) is afterwards what it
    was, so the status still reads as the same snapshot, and the result is
    the item the derivation gives on values.  A successful [fetchStatus] or
    [fetchData] puts the fetched snapshot, whole, in the place of the
    previous one, and after [handleConfirm] the status cell holds what it
    held or a snapshot written by [setStatus] during the reload. *)
Theorem fetched_snapshots_replaced_never_written `{Host} :
  (∀ (h : gmap Store.loc Store.object) s v,
     Store.load_status h s = Some v →
     ∃ r h', Store.nextPending (Some s) h = Some (r, h')
             ∧ (∀ l o, h !! l = Some o → h' !! l = Some o)
             ∧ Store.load_status h' s = Some v
             ∧ r ≫= Store.get_item h' = SeniorView.nextPending (Some v))
  ∧ (∀ net c w d,
       fetch_outcome "Failed to fetch status"
         (senior_today net (trace w ++ [SetLoading true; SetError ""])
            (today_request (SeniorView.userId c))) = inr d →
       SeniorView.status (view (after (SeniorView.fetchStatus net c) w))
         = Some d)
  ∧ (∀ net c w d,
       fetch_outcome "Failed to load dashboard"
         (caregiver_dashboard net (trace w ++ [SetLoading true; SetError ""])
            (dashboard_request (CaregiverView.patientId c))) = inr d →
       CaregiverView.data (view (after (CaregiverView.fetchData net c) w))
         = Some d)
  ∧ (∀ net c w,
       SeniorView.status (view (after (SeniorView.handleConfirm net c) w))
         = SeniorView.status (view w)
       ∨ ∃ d, SetStatus d ∈ trace (after (SeniorView.handleConfirm net c) w)
              ∧ SeniorView.status
                  (view (after (SeniorView.handleConfirm net c) w)) = Some d).
Proof.
  split; [|split; [|split]].
  - intros h s v Hv.
    destruct (store_nextPending_reads_only h s v Hv) as (r & h' & Hn & Hp & Hr).
    exists r, h'. split; [done|]. split; [done|]. split; [|done].
    by apply (load_status_preserved h h' s v Hp).
  - intros net c w d Hd. unfold after. rewrite fetchStatus_run. simpl.
    unfold fetchStatus_end. by rewrite Hd.
  - intros net c w d Hd. unfold after. rewrite fetchData_run. simpl.
    unfold fetchData_end. by rewrite Hd.
  - intros net c w. unfold after.
    destruct (SeniorView.nextPending (SeniorView.status c)) as [np|] eqn:Hnp.
    2:{ left. by rewrite (handleConfirm_none net c w Hnp). }
    rewrite (handleConfirm_run net c np w Hnp). simpl.
    unfold handleConfirm_end.
    destruct (post_outcome _ _) as [e|]; simpl; [by left|].
    unfold fetchStatus_end. simpl.
    destruct (fetch_outcome _ _) as [e|d]; simpl; [by left|].
    right. exists d. split; [|done].
    rewrite !elem_of_app. left. right. set_solver.
Qed.

Lemma fetched_snapshots_replaced_never_written_witness :
  Store.load_status Demo.store 1%positive = Some Demo.scenario
  ∧ ∃ r h', @Store.nextPending Demo.host (Some 1%positive) Demo.store
            = Some (r, h')
            ∧ (∀ l o, Demo.store !! l = Some o → h' !! l = Some o)
            ∧ Store.load_status h' 1%positive = Some Demo.scenario
            ∧ r ≫= Store.get_item h'
              = @SeniorView.nextPending Demo.host (Some Demo.scenario).
Proof.
  split; [vm_compute; reflexivity|].
  apply (proj1 (@fetched_snapshots_replaced_never_written Demo.host)).
  vm_compute; reflexivity.
Defined.

(** * Further properties of the module *)

(** ** The next pending dose, on every input *)

Section front_facts.
Context {A : Type} (comparefn : A → A → option Z).

Lemma front_elem_of l r : front comparefn l = Some r → r ∈ l.
Proof.
  rewrite <- head_Array_sort. intros Hh.
  rewrite <- (Array_sort_perm comparefn l).
  destruct (Array_sort comparefn l); simplify_eq/=. by left.
Qed.

Lemma front_is_Some l : l ≠ [] → is_Some (front comparefn l).
Proof.
  rewrite <- head_Array_sort. intros Hne.
  destruct (Array_sort comparefn l) as [|x s] eqn:Hs; [|by eexists].
  destruct l; [done|].
  apply (f_equal length) in Hs. by rewrite Array_sort_length in Hs.
Qed.

End front_facts.

(** X1.  The derivation gives no dose exactly when the status is null, or
    has no item collection, or every item of the collection has the status
    'taken'; the time strings play no part in that. *)
Theorem nextPending_none_iff `{Host} (status : option DailyStatus.t) :
  SeniorView.nextPending status = None
  ↔ status ≫= DailyStatus.items = None
    ∨ ∃ items, status ≫= DailyStatus.items = Some items
               ∧ Forall (λ i, DoseItem.status i = "taken") items.
Proof.
  unfold SeniorView.nextPending.
  destruct (status ≫= DailyStatus.items) as [items|]; [|by split; [left|]].
  set (pending := filter SeniorView.not_taken items).
  assert (pending = [] ↔ Forall (λ i, DoseItem.status i = "taken") items)
    as Hall.
  { unfold pending. rewrite Forall_forall. split.
    - intros He i Hi. destruct (decide (DoseItem.status i = "taken")); [done|].
      assert (i ∈ filter SeniorView.not_taken items) as Hin
        by by apply list_elem_of_filter.
      rewrite He in Hin. by apply elem_of_nil in Hin.
    - intros Ht. destruct (filter SeniorView.not_taken items) as [|i l] eqn:E;
        [done|].
      assert (i ∈ filter SeniorView.not_taken items) as Hin
        by (rewrite E; by left).
      apply list_elem_of_filter in Hin as [Hn Hin]. by destruct Hn; apply Ht. }
  split.
  - intros Hn. right. exists items. split; [done|]. apply Hall.
    case_decide as Hlen; [by destruct pending|].
    rewrite head_Array_sort in Hn.
    destruct (front_is_Some SeniorView.by_scheduled_time pending) as [r Hr].
    + by intros ->.
    + by rewrite Hr in Hn.
  - intros [|(items' & ? & Ht)]; [done|]. simplify_eq.
    apply Hall in Ht. rewrite Ht. by rewrite decide_True.
Qed.

(** X2.  A dose the derivation gives is an item of the status's collection
    and its status is not 'taken', whatever the scheduled times are. *)
Theorem nextPending_is_a_not_taken_item `{Host} (st : DailyStatus.t)
  (r : DoseItem.t) :
  SeniorView.nextPending (Some st) = Some r →
  ∃ items, DailyStatus.items st = Some items
           ∧ r ∈ items ∧ DoseItem.status r ≠ "taken".
Proof.
  unfold SeniorView.nextPending. simpl.
  destruct (DailyStatus.items st) as [items|]; [|done].
  case_decide; [done|]. rewrite head_Array_sort. intros Hr.
  apply front_elem_of in Hr. apply list_elem_of_filter in Hr as [Hn Hin].
  by exists items.
Qed.

Lemma nextPending_is_a_not_taken_item_witness :
  @SeniorView.nextPending Demo.host (Some Demo.scenario) = Some Demo.dose_C
  ∧ ∃ items, DailyStatus.items Demo.scenario = Some items
             ∧ Demo.dose_C ∈ items ∧ DoseItem.status Demo.dose_C ≠ "taken".
Proof.
  split; [vm_compute; reflexivity|].
  apply (@nextPending_is_a_not_taken_item Demo.host Demo.scenario Demo.dose_C).
  vm_compute; reflexivity.
Defined.

(** X3.  The order in which the backend lists the items does not matter
    when the non-taken items carry readable, pairwise different scheduled
    times: two statuses whose collections are permutations of each other
    (their counters may differ) have the same next pending dose. *)
Theorem nextPending_order_independent `{Host} (st st' : DailyStatus.t)
  (items items' : list DoseItem.t) :
  DailyStatus.items st = Some items →
  DailyStatus.items st' = Some items' →
  items ≡ₚ items' →
  (∀ i, i ∈ items → SeniorView.not_taken i → valid_time i) →
  (∀ i j, i ∈ items → j ∈ items →
          SeniorView.not_taken i → SeniorView.not_taken j →
          Date_getTime (DoseItem.scheduled_time i)
            = Date_getTime (DoseItem.scheduled_time j) → i = j) →
  SeniorView.nextPending (Some st) = SeniorView.nextPending (Some st').
Proof.
  intros Hi Hi' Hp Hv Hd.
  assert (filter SeniorView.not_taken items
          ≡ₚ filter SeniorView.not_taken items') as Hpf by by rewrite Hp.
  destruct (decide (filter SeniorView.not_taken items = [])) as [He|Hne].
  - rewrite (nextPending_items _ _ Hi), (nextPending_items _ _ Hi').
    rewrite (decide_True _ _ He).
    rewrite He in Hpf. apply Permutation_nil_l in Hpf.
    by rewrite decide_True.
  - assert (filter SeniorView.not_taken items' ≠ []) as Hne'.
    { intros He'. rewrite He' in Hpf. by apply Permutation_nil_r in Hpf. }
    assert (∀ i, i ∈ items' → SeniorView.not_taken i → valid_time i) as Hv'.
    { intros i Hin. apply Hv. by rewrite Hp. }
    destruct (nextPending_first_of_least st items Hi Hv Hne)
      as (l1 & r & l2 & Hr & Hl & H1 & H2).
    destruct (nextPending_first_of_least st' items' Hi' Hv' Hne')
      as (l1' & r' & l2' & Hr' & Hl' & H1' & H2').
    rewrite Hr, Hr'. f_equal.
    assert (∀ x l l', x ∈ l ++ r' :: l' →
              Forall (λ i, time_of r' < time_of i) l →
              Forall (λ i, time_of r' ≤ time_of i) l' →
              time_of r' ≤ time_of x) as Hmin'.
    { intros x l l' [Hx|Hx]%elem_of_app Ha Hb.
      - rewrite Forall_forall in Ha. specialize (Ha x Hx). lia.
      - apply elem_of_cons in Hx as [->|Hx]; [lia|].
        rewrite Forall_forall in Hb. by apply Hb. }
    assert (∀ x l l', x ∈ l ++ r :: l' →
              Forall (λ i, time_of r < time_of i) l →
              Forall (λ i, time_of r ≤ time_of i) l' →
              time_of r ≤ time_of x) as Hmin.
    { intros x l l' [Hx|Hx]%elem_of_app Ha Hb.
      - rewrite Forall_forall in Ha. specialize (Ha x Hx). lia.
      - apply elem_of_cons in Hx as [->|Hx]; [lia|].
        rewrite Forall_forall in Hb. by apply Hb. }
    assert (r ∈ filter SeniorView.not_taken items) as Hrin
      by (rewrite Hl; set_solver).
    assert (r' ∈ filter SeniorView.not_taken items) as Hrin'.
    { rewrite Hpf, Hl'. set_solver. }
    assert (time_of r = time_of r') as Ht.
    { apply Z.le_antisymm.
      - apply (Hmin r' l1 l2); [by rewrite <- Hl|done..].
      - apply (Hmin' r l1' l2'); [by rewrite <- Hl', <- Hpf|done..]. }
    apply list_elem_of_filter in Hrin as [Hn Hin].
    apply list_elem_of_filter in Hrin' as [Hn' Hin'].
    apply Hd; try done.
    destruct (Hv r Hin Hn) as [x Hx], (Hv r' Hin' Hn') as [y Hy].
    unfold time_of in Ht. rewrite Hx, Hy in Ht. simpl in Ht.
    by rewrite Hx, Hy, Ht.
Qed.

Lemma nextPending_order_independent_witness :
  [Demo.dose_A; Demo.dose_B; Demo.dose_C]
    ≡ₚ [Demo.dose_C; Demo.dose_A; Demo.dose_B]
  ∧ @SeniorView.nextPending Demo.host (Some Demo.scenario)
    = @SeniorView.nextPending Demo.host
        (Some (DailyStatus.mk None None
                 (Some [Demo.dose_C; Demo.dose_A; Demo.dose_B]))).
Proof.
  assert ([Demo.dose_A; Demo.dose_B; Demo.dose_C]
            ≡ₚ [Demo.dose_C; Demo.dose_A; Demo.dose_B]) as Hp.
  { change ([Demo.dose_A; Demo.dose_B] ++ [Demo.dose_C]
              ≡ₚ [Demo.dose_C] ++ [Demo.dose_A; Demo.dose_B]).
    apply Permutation_app_comm. }
  split; [exact Hp|].
  apply (@nextPending_order_independent Demo.host Demo.scenario
           (DailyStatus.mk None None
              (Some [Demo.dose_C; Demo.dose_A; Demo.dose_B]))
           [Demo.dose_A; Demo.dose_B; Demo.dose_C]
           [Demo.dose_C; Demo.dose_A; Demo.dose_B]
           eq_refl eq_refl Hp).
  - intros i Hi _.
    repeat (apply elem_of_cons in Hi as [->|Hi]);
      [eexists; vm_compute; reflexivity ..|].
    by apply elem_of_nil in Hi.
  - intros i j Hi Hj Hni Hnj.
    repeat (apply elem_of_cons in Hi as [->|Hi]);
      try (by apply elem_of_nil in Hi);
      repeat (apply elem_of_cons in Hj as [->|Hj]);
      try (by apply elem_of_nil in Hj);
      try done; try (by destruct Hni); try (by destruct Hnj);
      vm_compute; intros; simplify_eq.
Defined.

(** ** The handlers, whatever the backend answers *)

Lemma fetches_app t1 t2 : fetches (t1 ++ t2) = fetches t1 ++ fetches t2.
Proof. apply omap_app. Qed.

(** X4.  [finally { setLoading(false) }]: whatever the answers of the
    backend, a handler that starts a request ends with the loading cell
    false, its last call being [setLoading(false)], and it leaves the
    identifier typed by the user as it was. *)
Theorem handlers_end_not_loading `{Host} (net : Network) :
  (∀ c w,
     let w' := after (SeniorView.fetchStatus net c) w in
     SeniorView.loading (view w') = false
     ∧ last (trace w') = Some (SetLoading false)
     ∧ SeniorView.userId (view w') = SeniorView.userId (view w))
  ∧ (∀ c w,
       let w' := after (SeniorView.handleConfirm net c) w in
       is_Some (SeniorView.nextPending (SeniorView.status c)) →
       SeniorView.loading (view w') = false
       ∧ last (trace w') = Some (SetLoading false)
       ∧ SeniorView.userId (view w') = SeniorView.userId (view w))
  ∧ (∀ c w,
       let w' := after (CaregiverView.fetchData net c) w in
       CaregiverView.loading (view w') = false
       ∧ last (trace w') = Some (SetLoading false)
       ∧ CaregiverView.patientId (view w') = CaregiverView.patientId (view w)).
Proof.
  split; [|split]; intros c w; simpl; unfold after.
  - rewrite fetchStatus_run. simpl. unfold fetchStatus_end.
    destruct (fetch_outcome _ _); simpl; by rewrite !last_app.
  - intros [np Hnp]. rewrite (handleConfirm_run net c np w Hnp). simpl.
    unfold handleConfirm_end.
    destruct (post_outcome _ _); simpl.
    + by rewrite !last_app.
    + rewrite last_snoc. unfold fetchStatus_end.
      by destruct (fetch_outcome _ _).
  - rewrite fetchData_run. simpl. unfold fetchData_end.
    destruct (fetch_outcome _ _); simpl; by rewrite !last_app.
Qed.

(** X5.  No handler retries, and a reload follows the POST only when the
    POST succeeded: [fetchStatus] and [fetchData] send one GET each,
    whatever comes back; [handleConfirm] sends nothing without a pending
    dose, the POST alone when the POST fails, and the POST then one GET of
    the status when it succeeds. *)
Theorem requests_of_the_handlers `{Host} (net : Network) :
  (∀ c w,
     fetches (trace (after (SeniorView.fetchStatus net c) w))
     = fetches (trace w) ++ [today_request (SeniorView.userId c)])
  ∧ (∀ c w,
       fetches (trace (after (CaregiverView.fetchData net c) w))
       = fetches (trace w) ++ [dashboard_request (CaregiverView.patientId c)])
  ∧ (∀ c w,
       fetches (trace (after (SeniorView.handleConfirm net c) w))
       = fetches (trace w)
         ++ match SeniorView.nextPending (SeniorView.status c) with
            | None => []
            | Some np =>
                let req := confirm_request (SeniorView.userId c)
                             (DoseItem.medication_id np)
                             (DoseItem.scheduled_time np) in
                req ::
                match post_outcome "Failed to confirm dose"
                        (senior_confirm net
                           (trace w ++ [SetLoading true; SetError ""]) req) with
                | Some _ => []
                | None => [today_request (SeniorView.userId c)]
                end
            end).
Proof.
  split; [|split]; intros c w; unfold after.
  - rewrite fetchStatus_run. simpl. unfold fetchStatus_end.
    destruct (fetch_outcome _ _); simpl;
      rewrite !fetches_app, <- ?app_assoc; reflexivity.
  - rewrite fetchData_run. simpl. unfold fetchData_end.
    destruct (fetch_outcome _ _); simpl;
      rewrite !fetches_app, <- ?app_assoc; reflexivity.
  - destruct (SeniorView.nextPending (SeniorView.status c)) as [np|] eqn:Hnp.
    2:{ rewrite (handleConfirm_none net c w Hnp). simpl. by rewrite app_nil_r. }
    rewrite (handleConfirm_run net c np w Hnp). simpl.
    unfold handleConfirm_end.
    destruct (post_outcome _ _); simpl.
    + rewrite !fetches_app, <- ?app_assoc; reflexivity.
    + unfold fetchStatus_end.
      destruct (fetch_outcome _ _); simpl;
        rewrite !fetches_app, <- ?app_assoc; reflexivity.
Qed.

(** X6.  A Confirm that fails keeps the status, whether the POST failed or
    the POST succeeded and the reload failed: the error cell holds the
    message of the failure, and the next pending dose is the one it was (in
    the second case the dose just confirmed is offered again). *)
Theorem handleConfirm_failure_keeps_status `{Host} (net : Network)
  (c : SeniorView.state) (w : World SeniorView.state) (np : DoseItem.t)
  (e : Error) :
  let req := confirm_request (SeniorView.userId c) (DoseItem.medication_id np)
               (DoseItem.scheduled_time np) in
  let posted :=
    post_outcome "Failed to confirm dose"
      (senior_confirm net (trace w ++ [SetLoading true; SetError ""]) req) in
  let reloaded :=
    fetch_outcome "Failed to fetch status"
      (senior_today net
         (trace w ++ [SetLoading true; SetError ""; Fetch req;
                      SetLoading true; SetError ""])
         (today_request (SeniorView.userId c))) in
  let w' := after (SeniorView.handleConfirm net c) w in
  SeniorView.nextPending (SeniorView.status c) = Some np →
  posted = Some e ∨ (posted = None ∧ reloaded = inl e) →
  SeniorView.status (view w') = SeniorView.status (view w)
  ∧ SeniorView.error (view w') = message e
  ∧ SeniorView.nextPending (SeniorView.status (view w'))
    = SeniorView.nextPending (SeniorView.status (view w)).
Proof.
  simpl. intros Hnp Hfail. unfold after.
  rewrite (handleConfirm_run net c np w Hnp). simpl.
  unfold handleConfirm_end.
  destruct Hfail as [Hp|[Hp Hr]]; rewrite Hp; simpl; [done|].
  unfold fetchStatus_end. simpl. rewrite <- !app_assoc. simpl.
  by rewrite Hr.
Qed.

Lemma handleConfirm_failure_keeps_status_witness :
  SeniorView.status
    (view (after (@SeniorView.handleConfirm Demo.host Demo.refusing
                    (Demo.showing (Some Demo.scenario)))
             (Demo.world (Demo.showing (Some Demo.scenario)))))
  = Some Demo.scenario
  ∧ SeniorView.error
      (view (after (@SeniorView.handleConfirm Demo.host Demo.refusing
                      (Demo.showing (Some Demo.scenario)))
               (Demo.world (Demo.showing (Some Demo.scenario)))))
    = "Failed to confirm dose".
Proof.
  pose proof (@handleConfirm_failure_keeps_status Demo.host Demo.refusing
                (Demo.showing (Some Demo.scenario))
                (Demo.world (Demo.showing (Some Demo.scenario)))
                Demo.dose_C {| message := "Failed to confirm dose" |})
    as Hk.
  simpl in Hk. destruct Hk as (Hs & He & _).
  - vm_compute; reflexivity.
  - left. reflexivity.
  - split; [exact Hs | exact He].
Defined.

(** X7.  A load that succeeds leaves a clean view: after a successful
    [fetchStatus], and after a Confirm whose POST and reload both succeed,
    the status is the snapshot fetched, the loading cell is false and the
    error cell is empty, whatever error was shown before; the next pending
    dose is then derived from the fetched snapshot alone. *)
Theorem success_shows_the_fetched_status `{Host} (net : Network)
  (c : SeniorView.state) (w : World SeniorView.state) :
  (∀ d,
     fetch_outcome "Failed to fetch status"
       (senior_today net (trace w ++ [SetLoading true; SetError ""])
          (today_request (SeniorView.userId c))) = inr d →
     view (after (SeniorView.fetchStatus net c) w)
     = senior (view w) (Some d) false "")
  ∧ (∀ np d,
       let req := confirm_request (SeniorView.userId c)
                    (DoseItem.medication_id np) (DoseItem.scheduled_time np) in
       SeniorView.nextPending (SeniorView.status c) = Some np →
       post_outcome "Failed to confirm dose"
         (senior_confirm net (trace w ++ [SetLoading true; SetError ""]) req)
         = None →
       fetch_outcome "Failed to fetch status"
         (senior_today net
            (trace w ++ [SetLoading true; SetError ""; Fetch req;
                         SetLoading true; SetError ""])
            (today_request (SeniorView.userId c))) = inr d →
       view (after (SeniorView.handleConfirm net c) w)
       = senior (view w) (Some d) false ""
       ∧ SeniorView.nextPending
           (SeniorView.status (view (after (SeniorView.handleConfirm net c) w)))
         = SeniorView.nextPending (Some d)).
Proof.
  split.
  - intros d Hd. unfold after. rewrite fetchStatus_run. simpl.
    unfold fetchStatus_end. by rewrite Hd.
  - simpl. intros np d Hnp Hp Hd. unfold after.
    rewrite (handleConfirm_run net c np w Hnp). simpl.
    unfold handleConfirm_end. rewrite Hp. simpl.
    unfold fetchStatus_end. simpl. rewrite <- !app_assoc. simpl.
    by rewrite Hd.
Qed.

(** ** What the views show and offer *)

(** X8.  A failed load is shown over the data already there.  After a
    [fetchData] that fails while a snapshot is loaded, the view renders its
    header, the banner with the message of the failure (when that message is
    not empty) and the panels of the snapshot it had; after a failed
    [fetchStatus] the senior view renders the banner in the same way, above
    the counters, the Confirm button and the next-dose line of the status it
    had. *)
Theorem failure_is_shown_over_stale_data `{Host} (net : Network) :
  (∀ c w d e,
     CaregiverView.data (view w) = Some d →
     fetch_outcome "Failed to load dashboard"
       (caregiver_dashboard net (trace w ++ [SetLoading true; SetError ""])
          (dashboard_request (CaregiverView.patientId c))) = inl e →
     ∃ header,
       CaregiverView.render (view (after (CaregiverView.fetchData net c) w))
       = elem "div" [className "max-w-5xl mx-auto p-6"]
           ([header]
            ++ (if truthy (message e) then [banner (message e)] else [])
            ++ [CaregiverView.panels d]))
  ∧ (∀ c w e,
       fetch_outcome "Failed to fetch status"
         (senior_today net (trace w ++ [SetLoading true; SetError ""])
            (today_request (SeniorView.userId c))) = inl e →
       ∃ title footer,
         SeniorViewRender.render (view (after (SeniorView.fetchStatus net c) w))
         = elem "div" [className "w-full max-w-md mx-auto p-6"]
             ([title]
              ++ (if truthy (message e) then [banner (message e)] else [])
              ++ [elem "div" [className "bg-white rounded-2xl shadow p-6"]
                    [elem "div"
                       [className "flex items-center justify-between mb-4 text-lg"]
                       [elem "span" [] [text "Taken"];
                        elem "span" [className "font-semibold"]
                          [number (default 0 (SeniorView.status (view w)
                                              ≫= DailyStatus.taken));
                           text "/";
                           number (default 0 (SeniorView.status (view w)
                                              ≫= DailyStatus.total_doses))]];
                     SeniorViewRender.confirm_button (view w);
                     SeniorViewRender.next_dose_line (view w)];
                  footer])).
Proof.
  split.
  - intros c w d e Hd He. unfold after. rewrite fetchData_run. simpl.
    unfold fetchData_end. rewrite He. simpl.
    unfold CaregiverView.render. simpl. rewrite Hd.
    destruct (truthy (message e)); simpl; by eexists.
  - intros c w e He. unfold after. rewrite fetchStatus_run. simpl.
    unfold fetchStatus_end. rewrite He. simpl.
    unfold SeniorViewRender.render. simpl.
    destruct (truthy (message e)); simpl; by eexists _, _.
Qed.

(** X9.  The senior view offers Confirm exactly when no load is running and
    a dose is pending: while it is loading the button is not in the tree,
    and without a pending dose the button is disabled. *)
Theorem confirm_offered_iff `{Host} (c : SeniorView.state) :
  cb_handleConfirm ∈ clickable (SeniorViewRender.render c)
  ↔ SeniorView.loading c = false
    ∧ is_Some (SeniorView.nextPending (SeniorView.status c)).
Proof.
  unfold SeniorViewRender.render, SeniorViewRender.confirm_button.
  destruct (SeniorView.loading c), (truthy (SeniorView.error c)),
    (SeniorView.nextPending (SeniorView.status c)) as [np|];
    vm_compute clickable; split.
  all: try (intros [Hl Hs]; first [discriminate Hl | by destruct Hs as [? [=]]]).
  all: try (intros Hin; exfalso;
            repeat (apply elem_of_cons in Hin as [Hin|Hin]; [discriminate|]);
            by apply elem_of_nil in Hin).
  all: try (intros _; split; [done|by eexists]).
  all: intros _; repeat first [by left | right].
Qed.

Section caregiver_read_only.
Context `{Host}.

Lemma clickable_children tag attrs children :
  clickable (elem tag attrs children)
  = clicks_of attrs ++ concat (clickable <$> children).
Proof.
  simpl. f_equal. induction children as [|n l IH]; simpl; [done|].
  by rewrite IH.
Qed.

Lemma history_rows_not_clickable d :
  concat (clickable <$> CaregiverView.history_rows d) = [].
Proof.
  unfold CaregiverView.history_rows.
  induction (Dashboard.history d) as [|h l IH]; [done|].
  rewrite !fmap_cons. simpl. exact IH.
Qed.

Lemma missed_rows_not_clickable d :
  concat (clickable <$> CaregiverView.missed_rows d) = [].
Proof.
  unfold CaregiverView.missed_rows. rewrite fmap_app, concat_app.
  assert (∀ l : list HistoryEntry.t,
            concat (clickable <$>
              ((λ m,
                  elem "div" [key (HistoryEntry.id m); className "text-sm"]
                    [elem "div" [className "font-medium"]
                       [text (HistoryEntry.medication_id m)];
                     elem "div" [className "text-gray-600"]
                       [text (CaregiverView.scheduled_text
                                (HistoryEntry.scheduled_time m))]]) <$> l))
            = []) as Hrows.
  { induction l as [|h l IH]; [done|]. rewrite !fmap_cons. simpl. exact IH. }
  rewrite Hrows. by case_decide.
Qed.

Lemma inventory_rows_not_clickable d :
  concat (clickable <$> CaregiverView.inventory_rows d) = [].
Proof.
  unfold CaregiverView.inventory_rows. rewrite fmap_app, concat_app.
  match goal with
  | |- _ ++ concat (clickable <$> (?f <$> _)) = _ =>
      assert (∀ l, concat (clickable <$> (f <$> l)) = []) as Hrows
  end.
  { induction l as [|h l IH]; [done|]. rewrite !fmap_cons. simpl. exact IH. }
  rewrite Hrows. by case_decide.
Qed.

End caregiver_read_only.

(** X10.  The caregiver view is read-only and can always be refreshed: in
    every state, loading or not, with or without data or an error, the one
    thing a click can run is [fetchData]. *)
Theorem caregiver_offers_refresh_only `{Host} (c : CaregiverView.state) :
  clickable (CaregiverView.render c) = [cb_fetchData].
Proof.
  unfold CaregiverView.render.
  assert (∀ d, clickable (CaregiverView.panels d) = []) as Hpanels.
  { intros d. unfold CaregiverView.panels.
    repeat first [ rewrite clickable_children | rewrite fmap_cons
                 | rewrite concat_cons ].
    rewrite history_rows_not_clickable, missed_rows_not_clickable,
      inventory_rows_not_clickable. reflexivity. }
  rewrite clickable_children.
  rewrite !fmap_app, !concat_app.
  destruct (truthy (CaregiverView.error c)), (CaregiverView.loading c),
    (CaregiverView.data c) as [d|];
    rewrite ?fmap_cons, ?concat_cons, ?Hpanels; reflexivity.
Qed.

(** X11.  The panels list what the backend sent, entry by entry and in its
    order: the keys of the rows are the identifiers of the history and of
    the missed doses and the medication identifiers of the alerts (the
    empty-state paragraph has no key), so the client drops, adds and
    reorders nothing. *)
Theorem rows_follow_the_snapshot `{Host} (d : Dashboard.t) :
  omap row_key (CaregiverView.history_rows d)
    = HistoryEntry.id <$> Dashboard.history d
  ∧ omap row_key (CaregiverView.missed_rows d)
    = HistoryEntry.id <$> Dashboard.missed d
  ∧ omap row_key (CaregiverView.inventory_rows d)
    = InventoryAlert.medication_id <$> Dashboard.inventory_alerts d.
Proof.
  split; [|split].
  - unfold CaregiverView.history_rows.
    induction (Dashboard.history d) as [|h l IH]; [done|].
    rewrite !fmap_cons. simpl. f_equal. exact IH.
  - unfold CaregiverView.missed_rows. rewrite omap_app.
    replace (omap row_key
               (if decide (length (Dashboard.missed d) = 0%nat)
                then [elem "p" [className "text-sm text-gray-600"]
                        [text "No missed doses in the last week."]]
                else [])) with (@nil string) by by case_decide.
    simpl. induction (Dashboard.missed d) as [|h l IH]; [done|].
    rewrite !fmap_cons. simpl. f_equal. exact IH.
  - unfold CaregiverView.inventory_rows. rewrite omap_app.
    replace (omap row_key
               (if decide (length (Dashboard.inventory_alerts d) = 0%nat)
                then [elem "p" [className "text-sm text-gray-600"]
                        [text "All inventories look good."]]
                else [])) with (@nil string) by by case_decide.
    simpl. induction (Dashboard.inventory_alerts d) as [|h l IH]; [done|].
    rewrite !fmap_cons. simpl. f_equal. exact IH.
Qed.

(** ** Identifier changes, overlapping loads and the shell *)

Section effects_steps.
Context `{Host} (net : Network).

Lemma senior_onChange_same v c w :
  v = SeniorView.userId c →
  SeniorViewEffects.onChange net v c w
  = (Return (),
     {| view := senior {| SeniorView.userId := v;
                          SeniorView.status := SeniorView.status (view w);
                          SeniorView.loading := SeniorView.loading (view w);
                          SeniorView.error := SeniorView.error (view w) |}
                  (SeniorView.status (view w)) (SeniorView.loading (view w))
                  (SeniorView.error (view w));
        trace := trace w |}).
Proof.
  intros Hv. unfold SeniorViewEffects.onChange, SeniorViewEffects.setUserId.
  run_handler. by rewrite decide_True.
Qed.

Lemma senior_onChange_other v c w :
  v ≠ SeniorView.userId c →
  SeniorViewEffects.onChange net v c w
  = (Return (),
     fetchStatus_end net
       {| SeniorView.userId := v; SeniorView.status := SeniorView.status c;
          SeniorView.loading := SeniorView.loading c;
          SeniorView.error := SeniorView.error c |}
       {| view := {| SeniorView.userId := v;
                     SeniorView.status := SeniorView.status (view w);
                     SeniorView.loading := SeniorView.loading (view w);
                     SeniorView.error := SeniorView.error (view w) |};
          trace := trace w |}).
Proof.
  intros Hv. unfold SeniorViewEffects.onChange, SeniorViewEffects.setUserId.
  run_handler. rewrite decide_False by done. by rewrite fetchStatus_run.
Qed.

Lemma caregiver_onChange_same v c w :
  v = CaregiverView.patientId c →
  trace (after (CaregiverViewEffects.onChange net v c) w) = trace w
  ∧ CaregiverView.data (view (after (CaregiverViewEffects.onChange net v c) w))
    = CaregiverView.data (view w).
Proof.
  intros Hv. unfold after, CaregiverViewEffects.onChange,
    CaregiverViewEffects.setPatientId.
  run_handler. by rewrite decide_True.
Qed.

Lemma caregiver_onChange_other v c w :
  v ≠ CaregiverView.patientId c →
  CaregiverViewEffects.onChange net v c w
  = (Return (),
     fetchData_end net
       {| CaregiverView.patientId := v;
          CaregiverView.data := CaregiverView.data c;
          CaregiverView.loading := CaregiverView.loading c;
          CaregiverView.error := CaregiverView.error c |}
       {| view := {| CaregiverView.patientId := v;
                     CaregiverView.data := CaregiverView.data (view w);
                     CaregiverView.loading := CaregiverView.loading (view w);
                     CaregiverView.error := CaregiverView.error (view w) |};
          trace := trace w |}).
Proof.
  intros Hv. unfold CaregiverViewEffects.onChange,
    CaregiverViewEffects.setPatientId.
  run_handler. rewrite decide_False by done. by rewrite fetchData_run.
Qed.

End effects_steps.

(** X12.  Editing the patient identifier of the senior view stores the text
    typed; when it differs from the identifier of the current render, one
    GET of the status is sent for the new identifier (encoded in the query)
    and its outcome is handled as for any load, the status fetched taking
    the place of the previous one on success; when it does not differ,
    nothing is sent and the status is left alone. *)
Theorem identifier_change_reloads `{Host} (net : Network) (v : string)
  (c : SeniorView.state) (w : World SeniorView.state) :
  let w' := after (SeniorViewEffects.onChange net v c) w in
  let outcome :=
    fetch_outcome "Failed to fetch status"
      (senior_today net (trace w ++ [SetLoading true; SetError ""])
         (today_request v)) in
  SeniorView.userId (view w') = v
  ∧ (v = SeniorView.userId c →
       trace w' = trace w
       ∧ SeniorView.status (view w') = SeniorView.status (view w))
  ∧ (v ≠ SeniorView.userId c →
       fetches (trace w') = fetches (trace w) ++ [today_request v]
       ∧ url (today_request v)
         = API_BASE +:+ "/api/senior/today?user_id=" +:+ encodeURIComponent v
       ∧ (∀ d, outcome = inr d → SeniorView.status (view w') = Some d)
       ∧ (∀ e, outcome = inl e →
            SeniorView.status (view w') = SeniorView.status (view w)
            ∧ SeniorView.error (view w') = message e)).
Proof.
  simpl. unfold after. destruct (decide (v = SeniorView.userId c)) as [Hv|Hv].
  - rewrite (senior_onChange_same net v c w Hv). simpl.
    split; [done|]. split; [done|]. by intros ?.
  - rewrite (senior_onChange_other net v c w Hv). simpl.
    unfold fetchStatus_end. simpl.
    split; [by destruct (fetch_outcome _ _)|]. split; [done|]. intros _.
    split; [|split; [done|split]].
    + destruct (fetch_outcome _ _); simpl;
        rewrite !fetches_app, <- ?app_assoc; reflexivity.
    + intros d Hd. by rewrite Hd.
    + intros e He. by rewrite He.
Qed.

(** X13.  The same for the caregiver view: an edit of the patient
    identifier that changes it sends one GET of the dashboard for the new
    identifier; on failure the snapshot of the previous patient stays in the
    data cell, under the new identifier; an edit that does not change it
    sends nothing. *)
Theorem patient_change_reloads `{Host} (net : Network) (v : string)
  (c : CaregiverView.state) (w : World CaregiverView.state) :
  let w' := after (CaregiverViewEffects.onChange net v c) w in
  let outcome :=
    fetch_outcome "Failed to load dashboard"
      (caregiver_dashboard net (trace w ++ [SetLoading true; SetError ""])
         (dashboard_request v)) in
  (v = CaregiverView.patientId c →
     trace w' = trace w
     ∧ CaregiverView.data (view w') = CaregiverView.data (view w))
  ∧ (v ≠ CaregiverView.patientId c →
       CaregiverView.patientId (view w') = v
       ∧ fetches (trace w') = fetches (trace w) ++ [dashboard_request v]
       ∧ (∀ d, outcome = inr d → CaregiverView.data (view w') = Some d)
       ∧ (∀ e, outcome = inl e →
            CaregiverView.data (view w') = CaregiverView.data (view w)
            ∧ CaregiverView.error (view w') = message e)).
Proof.
  simpl. split.
  - apply caregiver_onChange_same.
  - intros Hv. unfold after.
    rewrite (caregiver_onChange_other net v c w Hv). simpl.
    unfold fetchData_end. simpl.
    split; [by destruct (fetch_outcome _ _)|]. split; [|split].
    + destruct (fetch_outcome _ _); simpl;
        rewrite !fetches_app, <- ?app_assoc; reflexivity.
    + intros d Hd. by rewrite Hd.
    + intros e He. by rewrite He.
Qed.

(** X14.  A stale status can be confirmed for another patient.  When the
    identifier is changed and the reload fails, the doses of the previous
    patient stay on screen under the new identifier, no load is running and
    a dose is still pending, so Confirm is offered; the POST it sends pairs
    the new identifier with the medication and time of that previous
    patient's dose. *)
Theorem confirm_after_failed_identifier_change `{Host} (net : Network)
  (v : string) (c : SeniorView.state) (w : World SeniorView.state)
  (np : DoseItem.t) (e : Error) :
  let w1 := after (SeniorViewEffects.onChange net v c) w in
  v ≠ SeniorView.userId c →
  SeniorView.nextPending (SeniorView.status (view w)) = Some np →
  fetch_outcome "Failed to fetch status"
    (senior_today net (trace w ++ [SetLoading true; SetError ""])
       (today_request v)) = inl e →
  SeniorView.userId (view w1) = v
  ∧ SeniorView.loading (view w1) = false
  ∧ SeniorView.nextPending (SeniorView.status (view w1)) = Some np
  ∧ ∃ rest,
      fetches (trace (after (SeniorView.handleConfirm net (view w1)) w1))
      = fetches (trace w)
        ++ [today_request v;
            confirm_request v (DoseItem.medication_id np)
              (DoseItem.scheduled_time np)]
        ++ rest.
Proof.
  simpl. intros Hv Hnp He.
  assert (after (SeniorViewEffects.onChange net v c) w
          = {| view := {| SeniorView.userId := v;
                          SeniorView.status := SeniorView.status (view w);
                          SeniorView.loading := false;
                          SeniorView.error := message e |};
               trace := trace w
                 ++ [SetLoading true; SetError ""; Fetch (today_request v);
                     SetError (message e); SetLoading false] |}) as Hw1.
  { unfold after. rewrite (senior_onChange_other net v c w Hv). simpl.
    unfold fetchStatus_end. simpl. rewrite He. simpl.
    by rewrite <- app_assoc. }
  rewrite Hw1. simpl. clear He Hw1.
  split; [done|]. split; [done|]. split; [done|].
  unfold after.
  match goal with
  | |- context [SeniorView.handleConfirm net ?c1 ?w1] =>
      rewrite (handleConfirm_run net c1 np w1 Hnp)
  end.
  simpl. unfold handleConfirm_end. simpl.
  destruct (post_outcome _ _); simpl.
  - eexists. rewrite !fetches_app, <- ?app_assoc. reflexivity.
  - unfold fetchStatus_end. simpl.
    destruct (fetch_outcome _ _); simpl; eexists;
      rewrite !fetches_app, <- ?app_assoc; reflexivity.
Qed.

Lemma confirm_after_failed_identifier_change_witness :
  fetches
    (trace
       (after (@SeniorView.handleConfirm Demo.host Demo.refusing
                 (view (after (@SeniorViewEffects.onChange Demo.host
                                 Demo.refusing "other-patient"
                                 (Demo.showing (Some Demo.scenario)))
                          (Demo.world (Demo.showing (Some Demo.scenario))))))
          (after (@SeniorViewEffects.onChange Demo.host Demo.refusing
                    "other-patient" (Demo.showing (Some Demo.scenario)))
             (Demo.world (Demo.showing (Some Demo.scenario))))))
  = [@today_request Demo.host "other-patient";
     @confirm_request Demo.host "other-patient" "C" "2024-01-01T12:00:00Z"].
Proof.
  pose proof (@confirm_after_failed_identifier_change Demo.host Demo.refusing
                "other-patient" (Demo.showing (Some Demo.scenario))
                (Demo.world (Demo.showing (Some Demo.scenario)))
                Demo.dose_C {| message := "Failed to fetch status" |}) as Hk.
  simpl in Hk. destruct Hk as (_ & _ & _ & rest & Hrest).
  - discriminate.
  - vm_compute; reflexivity.
  - reflexivity.
  - vm_compute; reflexivity.
Defined.

Section two_halves.
Context `{Host}.
Import SeniorView SeniorViewEffects.

(* The two halves, run one after the other with the answer of the backend,
   are [fetchStatus]. *)
Lemma fetchStatus_two_halves net c w :
  fetchStatus net c w
  = (fetchStatus_request c ;;
     fetchStatus_settled
       (senior_today net (trace w ++ [SetLoading true; SetError ""])
          (today_request (userId c)))) w.
Proof.
  unfold fetchStatus, fetchStatus_request, fetchStatus_settled, today_request,
    setLoading, setError, setStatus.
  run_handler. rewrite <- !app_assoc. simpl.
  by destruct (senior_today net _ _) as [e|[[] [e|d]]].
Qed.

(* What the second half leaves, from the answer. *)
Lemma fetchStatus_settled_run answer w :
  fetchStatus_settled answer w
  = (Return (),
     match fetch_outcome "Failed to fetch status" answer with
     | inr d =>
         {| view := senior (view w) (Some d) false (error (view w));
            trace := trace w ++ [SetStatus d; SetLoading false] |}
     | inl e =>
         {| view := senior (view w) (status (view w)) false (message e);
            trace := trace w ++ [SetError (message e); SetLoading false] |}
     end).
Proof.
  unfold fetchStatus_settled, fetch_outcome, setLoading, setError, setStatus.
  run_handler.
  destruct answer as [e|[[] [e|d]]]; simpl; rewrite <- ?app_assoc; reflexivity.
Qed.

Lemma fetchStatus_request_run c w :
  fetchStatus_request c w
  = (Return (),
     {| view := senior (view w) (status (view w)) true "";
        trace := trace w ++ [SetLoading true; SetError "";
                             Fetch (today_request (userId c))] |}).
Proof.
  unfold fetchStatus_request, today_request, setLoading, setError.
  run_handler. by rewrite <- !app_assoc.
Qed.

End two_halves.

(** X15.  Loads that overlap are not ordered.  [fetchStatus] is its part
    before the first [await] followed by its part after it; when two loads
    are in flight and the answer to the second arrives first, the loading
    cell goes false while the first is still awaited, and when the answer to
    the first arrives with a snapshot, that snapshot replaces the status:
    the last answer to arrive wins, whichever request was made last, and an
    error left by the other answer stays in the error cell. *)
Theorem last_answer_to_arrive_wins `{Host} (net : Network)
  (c1 c2 : SeniorView.state) (a1 a2 : settled DailyStatus.t)
  (w : World SeniorView.state) (d1 : DailyStatus.t) :
  let in_flight :=
    after (SeniorViewEffects.fetchStatus_request c1 ;;
           SeniorViewEffects.fetchStatus_request c2) w in
  let first_back := after (SeniorViewEffects.fetchStatus_settled a2) in_flight in
  let both_back := after (SeniorViewEffects.fetchStatus_settled a1) first_back in
  fetch_outcome "Failed to fetch status" a1 = inr d1 →
  SeniorView.fetchStatus net c1 w
    = (SeniorViewEffects.fetchStatus_request c1 ;;
       SeniorViewEffects.fetchStatus_settled
         (senior_today net (trace w ++ [SetLoading true; SetError ""])
            (today_request (SeniorView.userId c1)))) w
  ∧ fetches (trace in_flight)
    = fetches (trace w)
      ++ [today_request (SeniorView.userId c1);
          today_request (SeniorView.userId c2)]
  ∧ SeniorView.loading (view in_flight) = true
  ∧ SeniorView.loading (view first_back) = false
  ∧ SeniorView.status (view both_back) = Some d1
  ∧ SeniorView.error (view both_back) = SeniorView.error (view first_back).
Proof.
  simpl. intros Hd1. split; [apply fetchStatus_two_halves|].
  unfold after, mbind, M_bind.
  rewrite !fetchStatus_request_run. simpl.
  rewrite !fetchStatus_settled_run. simpl. rewrite Hd1.
  split.
  { rewrite !fetches_app, <- ?app_assoc. reflexivity. }
  split; [done|].
  destruct (fetch_outcome "Failed to fetch status" a2); simpl; done.
Qed.

(* The answer for the patient typed first arrives last and is what the view
   shows, with the error of the other load above it. *)
Lemma last_answer_to_arrive_wins_witness :
  SeniorView.status
    (view
       (after (SeniorViewEffects.fetchStatus_settled
                 (Resolved {| ok := true; Response_json := inr Demo.scenario |}))
          (after (SeniorViewEffects.fetchStatus_settled
                    (Rejected {| message := "Load failed" |}))
             (after (@SeniorViewEffects.fetchStatus_request Demo.host
                       SeniorView.initial ;;
                     @SeniorViewEffects.fetchStatus_request Demo.host
                       (Demo.showing None))
                (Demo.world SeniorView.initial)))))
  = Some Demo.scenario
  ∧ SeniorView.error
      (view
         (after (SeniorViewEffects.fetchStatus_settled
                   (Resolved {| ok := true;
                                Response_json := inr Demo.scenario |}))
            (after (SeniorViewEffects.fetchStatus_settled
                      (Rejected {| message := "Load failed" |}))
               (after (@SeniorViewEffects.fetchStatus_request Demo.host
                         SeniorView.initial ;;
                       @SeniorViewEffects.fetchStatus_request Demo.host
                         (Demo.showing None))
                  (Demo.world SeniorView.initial)))))
    = "Load failed".
Proof.
  pose proof (@last_answer_to_arrive_wins Demo.host Demo.refusing
                SeniorView.initial (Demo.showing None)
                (Resolved {| ok := true; Response_json := inr Demo.scenario |})
                (Rejected {| message := "Load failed" |})
                (Demo.world SeniorView.initial) Demo.scenario eq_refl)
    as (_ & _ & _ & _ & Hs & He).
  split; [exact Hs|]. rewrite He. reflexivity.
Defined.

(** X16.  The shell starts on the senior view; whatever buttons are
    clicked, the mode is 'senior' or 'caregiver', exactly one header button
    is drawn as active, and it is the button of the one view placed in the
    main area. *)
Theorem shell_highlights_the_shown_view (mode : string) :
  App.reachable mode →
  (mode = "senior"
   ∧ App.highlighted (App.render mode) = [App.setMode "senior"]
   ∧ App.shown (App.render mode) = ["SeniorView"])
  ∨ (mode = "caregiver"
     ∧ App.highlighted (App.render mode) = [App.setMode "caregiver"]
     ∧ App.shown (App.render mode) = ["CaregiverView"]).
Proof.
  assert (∀ m, m = "senior" ∨ m = "caregiver" →
               (m = "senior"
                ∧ App.highlighted (App.render m) = [App.setMode "senior"]
                ∧ App.shown (App.render m) = ["SeniorView"])
               ∨ (m = "caregiver"
                  ∧ App.highlighted (App.render m) = [App.setMode "caregiver"]
                  ∧ App.shown (App.render m) = ["CaregiverView"])) as Hshow.
  { intros m [->| ->]; [left|right]; repeat split; reflexivity. }
  intros Hr. apply Hshow.
  induction Hr as [|mode h _ IH Hin]; [by left|].
  assert (App.offered (App.render mode)
          = [App.setMode "senior"; App.setMode "caregiver"]) as Ho.
  { destruct IH as [->| ->]; reflexivity. }
  rewrite Ho in Hin.
  apply elem_of_cons in Hin as [->|Hin]; [by left|].
  apply elem_of_cons in Hin as [->|Hin]; [by right|].
  by apply elem_of_nil in Hin.
Qed.

Lemma shell_highlights_the_shown_view_witness :
  App.reachable "caregiver"
  ∧ ((("caregiver" : string) = "senior"
      ∧ App.highlighted (App.render "caregiver") = [App.setMode "senior"]
      ∧ App.shown (App.render "caregiver") = ["SeniorView"])
     ∨ (("caregiver" : string) = "caregiver"
        ∧ App.highlighted (App.render "caregiver") = [App.setMode "caregiver"]
        ∧ App.shown (App.render "caregiver") = ["CaregiverView"])).
Proof.
  assert (App.reachable "caregiver") as Hr.
  { apply (App.reachable_click App.initial (App.setMode "caregiver")
             App.reachable_initial).
    right. left. }
  split; [exact Hr|].
  exact (shell_highlights_the_shown_view "caregiver" Hr).
Defined.

(* Why the two modes matter: for any other mode the caregiver view would be
   placed with no button drawn as active. *)
Example shell_other_mode :
  App.highlighted (App.render "admin") = []
  ∧ App.shown (App.render "admin") = ["CaregiverView"].
Proof. split; reflexivity. Qed.

(** ** Ties and unreadable times *)

Section front_position.
Context {A : Type} (comparefn : A → A → option Z).

(* An element stays in front of whatever it does not compare greater than,
   and goes behind an element it compares greater than. *)
Lemma front_at l1 r l2 :
  (∀ x, x ∈ l1 → 0 < SortCompare comparefn x r) →
  (∀ y, y ∈ l2 → SortCompare comparefn r y ≤ 0) →
  front comparefn (l1 ++ r :: l2) = Some r.
Proof.
  intros H1 H2. induction l1 as [|x l1 IH]; simpl.
  - destruct (front comparefn l2) as [y|] eqn:Hy; [|done].
    apply front_elem_of in Hy. by rewrite decide_True by by apply H2.
  - fold (front comparefn (l1 ++ r :: l2)). rewrite IH.
    + rewrite decide_False; [done|].
      assert (0 < SortCompare comparefn x r) by (apply H1; by left). lia.
    + intros y Hy. apply H1. by right.
Qed.

End front_position.

(** X17.  On equal scheduled times the item listed first wins: a non-taken
    item is the next pending dose when every non-taken item listed before it
    is scheduled strictly later and every non-taken item listed after it is
    scheduled at the same time or later (all these times being readable). *)
Theorem nextPending_tie_break `{Host} (st : DailyStatus.t)
  (l1 l2 : list DoseItem.t) (r : DoseItem.t) :
  DailyStatus.items st = Some (l1 ++ r :: l2) →
  SeniorView.not_taken r →
  (∀ i, i ∈ l1 ++ r :: l2 → SeniorView.not_taken i → valid_time i) →
  (∀ i, i ∈ l1 → SeniorView.not_taken i → time_of r < time_of i) →
  (∀ i, i ∈ l2 → SeniorView.not_taken i → time_of r ≤ time_of i) →
  SeniorView.nextPending (Some st) = Some r.
Proof.
  intros Hi Hr Hv H1 H2.
  rewrite (nextPending_items _ _ Hi).
  rewrite filter_app, filter_cons, (decide_True _ _ Hr).
  rewrite decide_False by (by destruct (filter SeniorView.not_taken l1)).
  assert (valid_time r) as Hvr by (apply Hv; [set_solver|done]).
  apply front_at.
  - intros x [Hn Hx]%list_elem_of_filter.
    rewrite by_scheduled_time_valid; [|apply Hv; [set_solver|done]|done].
    specialize (H1 x Hx Hn). lia.
  - intros y [Hn Hy]%list_elem_of_filter.
    rewrite by_scheduled_time_valid; [|done|apply Hv; [set_solver|done]].
    specialize (H2 y Hy Hn). lia.
Qed.

(* Two pending doses at 12:00: the one listed first is next. *)
Lemma nextPending_tie_break_witness :
  @SeniorView.nextPending Demo.host
    (Some (DailyStatus.mk None None
             (Some ([Demo.dose_A; Demo.dose_B]
                    ++ Demo.dose_C
                       :: [DoseItem.mk "D" "2024-01-01T12:00:00Z" "missed"]))))
  = Some Demo.dose_C.
Proof.
  apply (@nextPending_tie_break Demo.host
           (DailyStatus.mk None None
              (Some ([Demo.dose_A; Demo.dose_B]
                     ++ Demo.dose_C
                        :: [DoseItem.mk "D" "2024-01-01T12:00:00Z" "missed"])))
           [Demo.dose_A; Demo.dose_B]
           [DoseItem.mk "D" "2024-01-01T12:00:00Z" "missed"] Demo.dose_C
           eq_refl).
  - discriminate.
  - intros i Hi _.
    repeat (apply elem_of_cons in Hi as [->|Hi]);
      [eexists; vm_compute; reflexivity ..|].
    by apply elem_of_nil in Hi.
  - intros i Hi Hn.
    repeat (apply elem_of_cons in Hi as [->|Hi]);
      [by destruct Hn | vm_compute; reflexivity |].
    by apply elem_of_nil in Hi.
  - intros i Hi _.
    repeat (apply elem_of_cons in Hi as [->|Hi]); [vm_compute; discriminate|].
    by apply elem_of_nil in Hi.
Defined.

(** X18.  When [Date] can read the scheduled time of none of the non-taken
    items, every comparison is NaN, the sort keeps the order of the list,
    and the next pending dose is the first non-taken item listed. *)
Theorem nextPending_no_readable_time `{Host} (st : DailyStatus.t)
  (items : list DoseItem.t) :
  DailyStatus.items st = Some items →
  (∀ i, i ∈ items → SeniorView.not_taken i →
        Date_getTime (DoseItem.scheduled_time i) = None) →
  SeniorView.nextPending (Some st) = head (filter SeniorView.not_taken items).
Proof.
  intros Hi Hn. rewrite (nextPending_items _ _ Hi).
  destruct (filter SeniorView.not_taken items) as [|r l] eqn:E; [done|].
  rewrite decide_False by done. simpl.
  apply (front_at SeniorView.by_scheduled_time [] r l); [by intros ? ?%elem_of_nil|].
  intros y Hy.
  assert (r ∈ filter SeniorView.not_taken items) as Hr by (rewrite E; by left).
  apply list_elem_of_filter in Hr as [Hnr Hr].
  unfold SortCompare, SeniorView.by_scheduled_time.
  by rewrite (Hn r Hr Hnr).
Qed.

Lemma nextPending_no_readable_time_witness :
  @SeniorView.nextPending Demo.host
    (Some (DailyStatus.mk None None
             (Some [Demo.dose_A; DoseItem.mk "X" "soon" "pending";
                    DoseItem.mk "Y" "later" "pending"])))
  = Some (DoseItem.mk "X" "soon" "pending").
Proof.
  apply (@nextPending_no_readable_time Demo.host
           (DailyStatus.mk None None
              (Some [Demo.dose_A; DoseItem.mk "X" "soon" "pending";
                     DoseItem.mk "Y" "later" "pending"]))
           [Demo.dose_A; DoseItem.mk "X" "soon" "pending";
            DoseItem.mk "Y" "later" "pending"] eq_refl).
  intros i Hi Hn.
  repeat (apply elem_of_cons in Hi as [->|Hi]);
    [by destruct Hn | reflexivity | reflexivity |].
  by apply elem_of_nil in Hi.
Defined.
